(** * skoots: tiling indexes, dtype scaling, tensor cropping and instance baking

    A shallow embedding of [skoots/lib/utils.py] and [skoots/lib/eval.py].

    Conventions of the embedding.
    - Python [int] is [Z]; a Python exception is an [exn] carried by [outcome].
    - A function under [@torch.jit.script] is run by TorchScript: its
      arguments of type [int] are 64-bit, an exception it raises with
      [raise] reaches the Python caller as [torch.jit.Error], and a failure
      inside a tensor operation as [RuntimeError].
    - A [dict] with string keys is a [gmap string _]; a [dict] that is iterated
      in insertion order is an association list.
    - A dense tensor is its shape together with the function from an index to
      the element stored there.  In [eval.py] a volume is indexed by the
      voxel coordinate [(x, y, z)].  The device a tensor lives on is not
      tracked: a CUDA device is taken to be present, as [eval] needs one
      from its line 171 on. *)

From Stdlib Require Import ZArith QArith List Lia Bool.
From stdpp Require Import gmap strings list.

Local Open Scope Z_scope.

(** ** Exceptions *)

Inductive exn : Type :=
  | RuntimeError
  | IndexError
  | TypeError
  | JitError.  (* torch.jit.Error *)

Inductive outcome (A : Type) : Type :=
  | Returned (a : A)
  | Raised (e : exn).

Arguments Returned {A} a.
Arguments Raised {A} e.

Definition bind {A B : Type} (m : outcome A) (k : A -> outcome B) : outcome B :=
  match m with
  | Returned a => k a
  | Raised e => Raised e
  end.

Notation "'do' x <- m ; k" := (bind m (fun x => k))
  (at level 10, x name, m at level 100, k at level 200).

(** Indexing a Python sequence that may be too short. *)
Definition lookup_or_raise {A : Type} (e : exn) (o : option A) : outcome A :=
  match o with
  | Some a => Returned a
  | None => Raised e
  end.

Module Utils.

(** *** [torch.arange(0, stop, step)] on integers

    torch refuses a zero step and a bound that lies on the wrong side of the
    start for the sign of the step (both are [RuntimeError]s); otherwise the
    result holds [ceil(stop / step)] multiples of [step].  torch holds the
    bounds in 64 bits; the embedding is that of the code for bounds within
    that range. *)

Definition ceil_div (a b : Z) : Z := - ((- a) / b).

Definition arange (stop step : Z) : outcome (list Z) :=
  if step =? 0 then Raised RuntimeError
  else if ((0 <? step) && (stop <? 0)) || ((step <? 0) && (0 <? stop))
       then Raised RuntimeError
  else Returned (map (fun k : nat => Z.of_nat k * step)
                     (seq 0 (Z.to_nat (ceil_div stop step)))).

(** *** [calculate_indexes]

    A window is the pair [[z1, z2]] the function appends.  The loop
    [for i, z in enumerate(ind_list)] skips [i = 0] and afterwards pairs every
    element with its predecessor; it stops at the first window whose end does
    not fit into the padded axis. *)

Definition window : Type := Z * Z.

Fixpoint index_loop (pad_size padded_image_shape prev : Z) (rest : list Z)
  : list window :=
  match rest with
  | [] => []
  | z :: rest' =>
      let z1 := prev in
      let z2 := (z - 1) + 2 * pad_size in
      if z2 <? padded_image_shape
      then (z1, z2) :: index_loop pad_size padded_image_shape z rest'
      else []
  end.

Definition regular_indexes (pad_size padded_image_shape : Z) (ind_list : list Z)
  : list window :=
  match ind_list with
  | [] => []
  | z0 :: rest => index_loop pad_size padded_image_shape z0 rest
  end.

Definition calculate_indexes
  (pad_size eval_image_size image_shape padded_image_shape : Z)
  : outcome (list window) :=
  if image_shape <? eval_image_size + 2 * pad_size
  then Returned [(0, image_shape - 1)]
  else
    match arange image_shape eval_image_size with
    | Raised _ => Raised RuntimeError
    | Returned ind_list =>
        match regular_indexes pad_size padded_image_shape ind_list with
        | [] =>
            Returned
              [ (0, eval_image_size + pad_size * 2);
                (padded_image_shape - (eval_image_size + pad_size * 2),
                 padded_image_shape) ]
        | ind =>
            Returned
              (ind ++ [ (padded_image_shape - (eval_image_size + pad_size * 2),
                         padded_image_shape - 1) ])
        end
    end.

(** The docstring gives every window the width
    [eval_image_size + pad_size * 2], which is the number of indexes of
    [[z1, z2]] with both ends counted.  The interior of a window is what is
    left after [pad_size] indexes are trimmed from each end. *)

Definition width (w : window) : Z := snd w - fst w + 1.

Definition in_window (w : window) (i : Z) : bool :=
  (fst w <=? i) && (i <=? snd w).

Definition interior (pad_size : Z) (w : window) : window :=
  (fst w + pad_size, snd w - pad_size).

Definition cover_count (pad_size : Z) (ws : list window) (i : Z) : nat :=
  length (List.filter (fun w => in_window (interior pad_size w) i) ws).

(** The window the loop appends in round [k + 1]. *)
Definition regular_window (pad_size eval_image_size : Z) (k : nat) : window :=
  (Z.of_nat k * eval_image_size,
   (Z.of_nat k + 1) * eval_image_size - 1 + 2 * pad_size).

(** *** [get_dtype_offset]

    [None] stands for Python's [None].  [image_max] is read as an integer,
    as the declared return type [int] has it; [if image_max:] is false for
    [None] and for [0]. *)

Definition encoding : gmap string Z :=
  {[ "uint16" := 2 ^ 16; "uint8" := 2 ^ 8; "uint12" := 2 ^ 12; "float64" := 1 ]}.

(** [dtype in encoding]. *)
Definition supported (dtype : string) : Prop := is_Some (encoding !! dtype).

Definition get_dtype_offset (dtype : string) (image_max : option Z) : option Z :=
  match encoding !! dtype with
  | Some scale => Some scale
  | None =>
      match image_max with
      | Some m =>
          if negb (m =? 0)
          then if m <=? 256 then Some 256 else Some m
          else None
      | None => None
      end
  end.

(** *** Tensors, [_crop3d] and [crop_to_identical_size] *)

Record Tensor : Type := mkTensor {
  shape : list nat;
  item : list nat -> Q
}.

Definition ndim (t : Tensor) : nat := length (shape t).

(** [t.shape[-k]] for [k >= 1], inside a scripted function: the list
    indexing of TorchScript fails with a [RuntimeError] when the tensor has
    fewer than [k] dimensions. *)
Definition shape_from_end (t : Tensor) (k : nat) : outcome nat :=
  lookup_or_raise RuntimeError (rev (shape t) !! (k - 1)%nat).

(** Python's reading of one bound of [start:stop] on an axis of [n]
    elements: a negative bound counts from the end, and every bound is
    clipped into [[0, n]]. *)
Definition slice_bound (n : nat) (i : Z) : Z :=
  if i <? 0 then Z.max 0 (i + Z.of_nat n) else Z.min i (Z.of_nat n).

(** First index and number of elements of [start:stop]. *)
Definition slice (n : nat) (start stop : Z) : nat * nat :=
  let a := slice_bound n start in
  let b := slice_bound n stop in
  (Z.to_nat a, Z.to_nat (b - a)).

(** The index of the source element behind an index of the crop: the last
    three coordinates move by the first index of each slice. *)
Definition shift_last3 (ax ay az : nat) (idx : list nat) : list nat :=
  match rev idx with
  | k :: j :: i :: lead => rev lead ++ [(i + ax)%nat; (j + ay)%nat; (k + az)%nat]
  | _ => idx
  end.

(** [img[..., x : x + w, y : y + h, z : z + d]].  Slicing more axes than
    the tensor has fails inside the scripted function, with a
    [RuntimeError].  The stops [x + w], [y + h] and [z + d] are computed
    here without the 64-bit wrap-around of TorchScript; the embedding is
    that of the code when [-2^63 <= x + w < 2^63], and likewise for the
    other two sums. *)
Definition _crop3d (img : Tensor) (x y z w h d : Z) : outcome Tensor :=
  match rev (shape img) with
  | nz :: ny :: nx :: lead =>
      let '(ax, lx) := slice nx x (x + w) in
      let '(ay, ly) := slice ny y (y + h) in
      let '(az, lz) := slice nz z (z + d) in
      Returned
        {| shape := rev lead ++ [lx; ly; lz];
           item := fun idx => item img (shift_last3 ax ay az idx) |}
  | _ => Raised RuntimeError
  end.

(** The function is scripted: the [raise RuntimeError(...)] of line 249
    reaches the caller as [torch.jit.Error], which is not a subclass of
    [RuntimeError]. *)
Definition crop_to_identical_size (a b : Tensor) : outcome (Tensor * Tensor) :=
  if (ndim a <? 3)%nat then Raised JitError
  else
    do w <- shape_from_end b 3;
    do h <- shape_from_end b 2;
    do d <- shape_from_end b 1;
    do a' <- _crop3d a 0 0 0 (Z.of_nat w) (Z.of_nat h) (Z.of_nat d);
    do w' <- shape_from_end a' 3;
    do h' <- shape_from_end a' 2;
    do d' <- shape_from_end a' 1;
    do b' <- _crop3d b 0 0 0 (Z.of_nat w') (Z.of_nat h') (Z.of_nat d');
    Returned (a', b').

(** *** [_crop2d]

    [img[..., x : x + w, y : y + h]], with the same reading of the sums and
    of the failure as in [_crop3d]. *)

Definition shift_last2 (ax ay : nat) (idx : list nat) : list nat :=
  match rev idx with
  | j :: i :: lead => rev lead ++ [(i + ax)%nat; (j + ay)%nat]
  | _ => idx
  end.

Definition _crop2d (img : Tensor) (x y w h : Z) : outcome Tensor :=
  match rev (shape img) with
  | ny :: nx :: lead =>
      let '(ax, lx) := slice nx x (x + w) in
      let '(ay, ly) := slice ny y (y + h) in
      Returned
        {| shape := rev lead ++ [lx; ly];
           item := fun idx => item img (shift_last2 ax ay idx) |}
  | _ => Raised RuntimeError
  end.

(** *** [cfg_to_bism_model]

    The classes of [bism] and [torch.nn] are names here.  A configuration
    value is a string or something else; a value that is not a string is a
    key of none of the tables, and the test [config in vd] raises a
    [TypeError] for it when it cannot be hashed (a list, for one). *)

Inductive component : Type :=
  | UNeXT_3D | UNet_3D | Block3D | UpSampleLayer3D | LayerNorm_channels_first
  | GELU | ReLU | SiLU | SELU | ConcatConv3D.

Definition _valid_model_constructors : gmap string component :=
  {[ "bism_unext" := UNeXT_3D; "bism_unet" := UNet_3D ]}.

Definition _valid_model_blocks : gmap string component :=
  {[ "block3d" := Block3D ]}.

Definition _valid_upsample_layers : gmap string component :=
  {[ "upsamplelayer3d" := UpSampleLayer3D ]}.

Definition _valid_normalization : gmap string component :=
  {[ "layernorm" := LayerNorm_channels_first ]}.

Definition _valid_activations : gmap string component :=
  {[ "gelu" := GELU; "relu" := ReLU; "silu" := SiLU; "selu" := SELU ]}.

Definition _valid_concat_blocks : gmap string component :=
  {[ "concatconv3d" := ConcatConv3D ]}.

Section Cfg.

(** Configuration values that are not strings (lists, numbers), and whether
    such a value can be hashed. *)
Variable other : Type.
Variable hashable : other -> bool.

Inductive value : Type :=
  | Str (s : string)
  | Other (o : other).

Record MODEL : Type := mkMODEL {
  DIMS : value;
  DEPTHS : value;
  KERNEL_SIZE : value;
  DROP_PATH_RATE : value;
  LAYER_SCALE_INIT_VALUE : value;
  ACTIVATION : value;
  BLOCK : value;
  CONCAT_BLOCK : value;
  UPSAMPLE_BLOCK : value;
  NORMALIZATION : value;
  ARCHITECTURE : value;
  IN_CHANNELS : value;
  OUT_CHANNELS : value
}.

(** A keyword argument is a configuration value passed on as it is, or the
    class a name stands for. *)
Inductive kwvalue : Type :=
  | Config (v : value)
  | Class (c : component).

(** Lines 101-102,
    [SpatialEmbedding(backbone(in_channels, out_channels, **kwarg))]: the
    constructors belong to [bism], outside the source files; they build a
    model or raise. *)
Variable model : Type.
Variable construct :
  component -> value -> value -> gmap string kwvalue -> outcome model.

(** [config in vd], and [vd[config]] when it holds. *)
Definition class_of (vd : gmap string component) (config : value)
  : outcome (option component) :=
  match config with
  | Str s => Returned (vd !! s)
  | Other o => if hashable o then Returned None else Raised TypeError
  end.

Fixpoint fill_kwarg
  (entries : list (string * value * option (gmap string component)))
  (kwarg : gmap string kwvalue) : outcome (gmap string kwvalue) :=
  match entries with
  | [] => Returned kwarg
  | (kw, config, vd) :: rest =>
      match vd with
      | Some vd =>
          match class_of vd config with
          | Returned (Some c) => fill_kwarg rest (<[kw := Class c]> kwarg)
          | Returned None => Raised RuntimeError
          | Raised e => Raised e
          end
      | None => fill_kwarg rest (<[kw := Config config]> kwarg)
      end
  end.

Definition cfg_to_bism_model (cfg : MODEL) : outcome model :=
  let model_config :=
    [ DIMS cfg; DEPTHS cfg; KERNEL_SIZE cfg; DROP_PATH_RATE cfg;
      LAYER_SCALE_INIT_VALUE cfg; ACTIVATION cfg; BLOCK cfg; CONCAT_BLOCK cfg;
      UPSAMPLE_BLOCK cfg; NORMALIZATION cfg ] in
  let model_kwargs :=
    [ "dims"; "depths"; "kernel_size"; "drop_path_rate";
      "layer_scale_init_value"; "activation"; "block"; "concat_conv";
      "upsample_layer"; "normalization" ] in
  let valid_dicts :=
    [ None; None; None; None; None; Some _valid_activations;
      Some _valid_model_blocks; Some _valid_concat_blocks;
      Some _valid_upsample_layers; Some _valid_normalization ] in
  do kwarg <- fill_kwarg (zip (zip model_kwargs model_config) valid_dicts) ∅;
  do found <- class_of _valid_model_constructors (ARCHITECTURE cfg);
  do backbone <- lookup_or_raise RuntimeError found;
  construct backbone (IN_CHANNELS cfg) (OUT_CHANNELS cfg) kwarg.

End Cfg.

Arguments Str {other} s.
Arguments Other {other} o.
Arguments Config {other} v.
Arguments Class {other} c.
Arguments DIMS {other} m.
Arguments DEPTHS {other} m.
Arguments KERNEL_SIZE {other} m.
Arguments DROP_PATH_RATE {other} m.
Arguments LAYER_SCALE_INIT_VALUE {other} m.
Arguments ACTIVATION {other} m.
Arguments BLOCK {other} m.
Arguments CONCAT_BLOCK {other} m.
Arguments UPSAMPLE_BLOCK {other} m.
Arguments NORMALIZATION {other} m.
Arguments ARCHITECTURE {other} m.
Arguments IN_CHANNELS {other} m.
Arguments OUT_CHANNELS {other} m.
Arguments class_of {other} hashable vd config.
Arguments fill_kwarg {other} hashable entries kwarg.
Arguments cfg_to_bism_model {other} hashable {model} construct cfg.

End Utils.

Module Eval.

(** *** Voxel coordinates *)

Definition coord : Type := Z * Z * Z.

Definition cadd (p q : coord) : coord :=
  let '(px, py, pz) := p in let '(qx, qy, qz) := q in (px + qx, py + qy, pz + qz).

Definition csub (p q : coord) : coord :=
  let '(px, py, pz) := p in let '(qx, qy, qz) := q in (px - qx, py - qy, pz - qz).

Definition cmin (p q : coord) : coord :=
  let '(px, py, pz) := p in
  let '(qx, qy, qz) := q in (Z.min px qx, Z.min py qy, Z.min pz qz).

Definition cmax (p q : coord) : coord :=
  let '(px, py, pz) := p in
  let '(qx, qy, qz) := q in (Z.max px qx, Z.max py qy, Z.max pz qz).

(** [0 <= c < shp] on every axis. *)
Definition in_box (shp c : coord) : bool :=
  let '(X, Y, Z) := shp in
  let '(x, y, z) := c in
  (0 <=? x) && (x <? X) && (0 <=? y) && (y <? Y) && (0 <=? z) && (z <? Z).

(** *** Volumes

    The instance label volume [[X, Y, Z]] holds an id per voxel; a vector
    or embedding field [[3, X, Y, Z]] holds three numbers per voxel. *)

Record Volume : Type := mkVolume {
  vshape : coord;
  voxel : coord -> Z
}.

Record Field : Type := mkField {
  fshape : coord;
  vec : coord -> Q * Q * Q
}.

(** Modelled from the spec: [vector_to_embedding], which [eval.py] imports
    from [skoots.lib.vector_to_embedding]; that module is not among the
    source files.  The spec's contract is
    [E[:, x, y, z] = (x, y, z) + S * V[:, x, y, z]]. *)
Definition vector_to_embedding (scale : Q * Q * Q) (vectors : Field) : Field :=
  {| fshape := fshape vectors;
     vec := fun c =>
       let '(x, y, z) := c in
       let '(sx, sy, sz) := scale in
       let '(vx, vy, vz) := vec vectors c in
       (inject_Z x + sx * vx, inject_Z y + sy * vy, inject_Z z + sz * vz)%Q |}.

(** *** The label volume as mutable state

    [get_instance] works on the tensor it is given (lines 88-98 write into
    it) and returns that same tensor; [eval] passes one tensor through
    every call.  A computation therefore takes the volume and gives back
    its outcome together with the volume as it then stands, also when it
    raises. *)

Definition M (A : Type) : Type := Volume -> outcome A * Volume.

Definition ret {A : Type} (a : A) : M A := fun mask => (Returned a, mask).

Definition lift {A : Type} (o : outcome A) : M A := fun mask => (o, mask).

(** A step that reads the volume and leaves it as it is. *)
Definition reads {A : Type} (f : Volume -> outcome A) : M A :=
  fun mask => (f mask, mask).

Definition bindM {A B : Type} (m : M A) (k : A -> M B) : M B :=
  fun mask =>
    match m mask with
    | (Returned a, mask') => k a mask'
    | (Raised e, mask') => (Raised e, mask')
    end.

Notation "'run' x <- m ; k" := (bindM m (fun x => k))
  (at level 10, x name, m at level 100, k at level 200).

(** *** [get_instance] *)

Definition buffer : coord := (50, 50, 10).

(** [t.clamp(lo)] and [t.clamp(lo, hi)] on one element. *)
Definition clamp_min (lo x : Z) : Z := Z.max x lo.
Definition clamp (lo hi x : Z) : Z := Z.min (Z.max x lo) hi.

(** [t.min(0)[0]] and [t.max(0)[0]] of an [N x 3] tensor: torch raises an
    [IndexError] when the reduced dimension is empty. *)
Definition col_min (rows : list coord) : outcome coord :=
  match rows with
  | [] => Raised IndexError
  | r :: rs => Returned (fold_left cmin rs r)
  end.

Definition col_max (rows : list coord) : outcome coord :=
  match rows with
  | [] => Raised IndexError
  | r :: rs => Returned (fold_left cmax rs r)
  end.

(** Lines 49-57: the bounds [ind_min], [ind_max] of the crop around a
    skeleton, for vectors of spatial shape [shp]. *)
Definition crop_bounds (shp : coord) (skeleton : list coord)
  : outcome (coord * coord) :=
  let '(X, Y, Z) := shp in
  let ind_min :=
    map (fun p => let '(x, y, z) := csub p buffer in
                  (clamp_min 0 x, clamp_min 0 y, clamp_min 0 z)) skeleton in
  let ind_max :=
    map (fun p => let '(x, y, z) := cadd p buffer in
                  (clamp 0 X x, clamp 0 Y y, clamp 0 Z z)) skeleton in
  do ind_min <- col_min ind_min;
  do ind_max <- col_max ind_max;
  Returned (ind_min, ind_max).

(** The shape of [t[a0:b0, a1:b1, a2:b2]] when no bound is negative and
    [b] does not exceed the tensor, as [crop_bounds] ensures. *)
Definition crop_shape (ind_min ind_max : coord) : coord :=
  let '(dx, dy, dz) := csub ind_max ind_min in
  (Z.max 0 dx, Z.max 0 dy, Z.max 0 dz).

Definition crop_field (vectors : Field) (ind_min ind_max : coord) : Field :=
  {| fshape := crop_shape ind_min ind_max;
     vec := fun c => vec vectors (cadd ind_min c) |}.

(** Line 65, [mask[:, a0:b0, a1:b1, a2:b2]]: four indexes into the label
    volume.  The volume has three dimensions: [eval] makes it at line 244
    with the shape of [semantic], which line 208 (or 212) has cut down to
    [[X, Y, Z]], and lines 88-98 index it with three slices.  torch refuses
    more indexes than a tensor has dimensions with an [IndexError], so the
    indexing yields no tensor at all. *)
Definition index_mask (mask : Volume) (ind_min ind_max : coord)
  : outcome Empty_set :=
  Raised IndexError.

(** [baked_embed_to_prob] stands for the function of that name of
    [skoots.lib.embedding_to_prob], which is not among the source files and
    which line 83 calls.  No call gets that far: lines 49-57 raise for a
    skeleton without points, and line 65 raises for every other one, so that
    lines 70-100, with the volume test of line 87 and the writes into [mask]
    of lines 88-98, are never run. *)
Definition get_instance
  (baked_embed_to_prob : Field -> list coord -> Q * Q * Q -> coord -> Q)
  (vectors : Field) (skeleton : list coord) (id : Z)
  (num : Q * Q * Q) (thr : Q) (min_instance_volume : Z) : M unit :=
  run bounds <- lift (crop_bounds (fshape vectors) skeleton);
  let '(ind_min, ind_max) := bounds in
  let crop := crop_field vectors ind_min ind_max in
  run mask_crop <- reads (fun mask => index_mask mask ind_min ind_max);
  match mask_crop with end.

(** Lines 246-247 of [eval]: every key of [skeleton_dict], in the order of
    the dict, with the skeleton stored under it. *)
Fixpoint bake
  (baked_embed_to_prob : Field -> list coord -> Q * Q * Q -> coord -> Q)
  (vectors : Field) (num : Q * Q * Q) (thr : Q)
  (min_instance_volume : Z) (skeleton_dict : list (Z * list coord)) : M unit :=
  match skeleton_dict with
  | [] => ret tt
  | (k, skeleton) :: rest =>
      run _ <- get_instance baked_embed_to_prob vectors skeleton k num thr
                 min_instance_volume;
      bake baked_embed_to_prob vectors num thr min_instance_volume rest
  end.

(** [eval] calls [get_instance] with [num = (60, 60, 6)] and the default
    [thr = 0.5] and [min_instance_volume = 183]. *)
Definition eval_bake
  (baked_embed_to_prob : Field -> list coord -> Q * Q * Q -> coord -> Q)
  (vectors : Field) (skeleton_dict : list (Z * list coord)) : M unit :=
  bake baked_embed_to_prob vectors (60, 60, 6)%Q (1 # 2)%Q 183 skeleton_dict.

(** *** The scale of [eval] (lines 104-116)

    [image_max] is [image.max()]. *)

Definition Qlt_bool (a b : Q) : bool := negb (Qle_bool b a).

Definition eval_scale (image_max : Q) : Z :=
  let scale := -99999 in
  if Qlt_bool 256 image_max then 2 ^ 16
  else if Qle_bool image_max 256 && Qlt_bool 1 image_max then 256
  else if Qlt_bool image_max 1 && Qlt_bool 0 image_max then 1
  else scale.

End Eval.

(** ** Concrete inputs for the runs below *)

Definition zero_field (shp : Eval.coord) : Eval.Field :=
  {| Eval.fshape := shp; Eval.vec := fun _ => (0, 0, 0)%Q |}.

Definition zero_volume (shp : Eval.coord) : Eval.Volume :=
  {| Eval.vshape := shp; Eval.voxel := fun _ => 0 |}.

(** A stand-in for [baked_embed_to_prob]: probability 1 on the whole
    crop. *)
Definition on_crop
  : Eval.Field -> list Eval.coord -> Q * Q * Q -> Eval.coord -> Q :=
  fun _ _ _ _ => 1%Q.

(** ** Predicates of the statements below *)

(** The order of coordinates, axis by axis. *)
Definition cle (p q : Eval.coord) : Prop :=
  let '(px, py, pz) := p in
  let '(qx, qy, qz) := q in px <= qx /\ py <= qy /\ pz <= qz.

(** [v] lies within the buffer of (50, 50, 10) voxels around [p]. *)
Definition near (p v : Eval.coord) : Prop :=
  let '(px, py, pz) := p in
  let '(vx, vy, vz) := v in
  px - 50 <= vx < px + 50 /\ py - 50 <= vy < py + 50
  /\ pz - 10 <= vz < pz + 10.

(** The configurations whose six names are keys of their tables. *)
Definition accepted {other : Type} (cfg : Utils.MODEL other) : Prop :=
  In (Utils.ACTIVATION cfg)
    [Utils.Str "gelu"; Utils.Str "relu"; Utils.Str "silu"; Utils.Str "selu"]
  /\ Utils.BLOCK cfg = Utils.Str "block3d"
  /\ Utils.CONCAT_BLOCK cfg = Utils.Str "concatconv3d"
  /\ Utils.UPSAMPLE_BLOCK cfg = Utils.Str "upsamplelayer3d"
  /\ Utils.NORMALIZATION cfg = Utils.Str "layernorm"
  /\ In (Utils.ARCHITECTURE cfg)
       [Utils.Str "bism_unext"; Utils.Str "bism_unet"].

(** The six values that are looked up in a table. *)
Definition names {other : Type} (cfg : Utils.MODEL other)
  : list (Utils.value other) :=
  [ Utils.ACTIVATION cfg; Utils.BLOCK cfg; Utils.CONCAT_BLOCK cfg;
    Utils.UPSAMPLE_BLOCK cfg; Utils.NORMALIZATION cfg;
    Utils.ARCHITECTURE cfg ].

(** * Properties of [utils.py] *)

(** Case analysis on the integer comparisons of a goal, closed by
    arithmetic. *)
Ltac cmp_cases :=
  repeat match goal with
    | |- context [?a <=? ?b] => destruct (Z.leb_spec a b)
    | |- context [?a <? ?b] => destruct (Z.ltb_spec a b)
    | |- context [?a =? ?b] => destruct (Z.eqb_spec a b)
    end;
  simpl; try reflexivity; try lia.

Section Tiling.

Import Utils.

Variables pad_size eval_image_size : Z.

#[local] Abbreviation regular_window :=
  (Utils.regular_window pad_size eval_image_size).

Lemma ceil_div_bounds (a b : Z) :
  0 < b -> (ceil_div a b - 1) * b < a <= ceil_div a b * b.
Proof.
  intros Hb. unfold ceil_div.
  pose proof (Z.div_mod (- a) b ltac:(lia)) as Hdm.
  pose proof (Z.mod_pos_bound (- a) b Hb) as Hm.
  nia.
Qed.

Lemma arange_forward (stop step : Z) :
  0 < step -> 0 <= stop ->
  arange stop step =
    Returned (map (fun k : nat => Z.of_nat k * step)
                  (seq 0 (Z.to_nat (ceil_div stop step)))).
Proof.
  intros Hs Hstop. unfold arange.
  destruct (Z.eqb_spec step 0); [lia|].
  destruct (Z.ltb_spec 0 step), (Z.ltb_spec stop 0), (Z.ltb_spec step 0),
    (Z.ltb_spec 0 stop); simpl; try lia; reflexivity.
Qed.

Lemma index_loop_regular (padded_image_shape : Z) (m j : nat) :
  0 < eval_image_size ->
  Z.of_nat (j + m) * eval_image_size - 1 + 2 * pad_size < padded_image_shape ->
  index_loop pad_size padded_image_shape (Z.of_nat j * eval_image_size)
    (map (fun k : nat => Z.of_nat k * eval_image_size) (seq (S j) m))
  = map regular_window (seq j m).
Proof.
  intros He. revert j. induction m as [|m IH]; intros j Hfit; [reflexivity|].
  cbn [seq map index_loop].
  destruct (Z.ltb_spec (Z.of_nat (S j) * eval_image_size - 1 + 2 * pad_size)
              padded_image_shape) as [_|Hge].
  2:{ assert (Z.of_nat (S j) * eval_image_size
              <= Z.of_nat (j + S m) * eval_image_size)
        by (apply Z.mul_le_mono_nonneg_r; lia).
      lia. }
  rewrite IH by (replace (S j + m)%nat with (j + S m)%nat by lia; exact Hfit).
  f_equal. unfold Utils.regular_window. f_equal. rewrite Nat2Z.inj_succ. lia.
Qed.

Lemma in_window_iff (w : window) (i : Z) :
  in_window w i = true <-> fst w <= i <= snd w.
Proof. unfold in_window. rewrite andb_true_iff, !Z.leb_le. reflexivity. Qed.

Lemma cover_count_app (ws : list window) (w : window) (i : Z) :
  cover_count pad_size (ws ++ [w]) i
  = (cover_count pad_size ws i
     + if in_window (interior pad_size w) i then 1 else 0)%nat.
Proof.
  unfold cover_count. rewrite List.filter_app, length_app. cbn [List.filter].
  destruct (in_window (interior pad_size w) i); reflexivity.
Qed.

Lemma cover_count_regular (m j : nat) (i : Z) :
  0 < eval_image_size ->
  cover_count pad_size (map regular_window (seq j m)) i
  = if (Z.of_nat j * eval_image_size + pad_size <=? i)
       && (i <? Z.of_nat (j + m) * eval_image_size + pad_size)
    then 1%nat else 0%nat.
Proof.
  intros He. revert j. induction m as [|m IH]; intros j.
  - cbn. replace (j + 0)%nat with j by lia. cmp_cases.
  - cbn [seq map]. unfold cover_count in *. cbn [List.filter].
    specialize (IH (S j)). rewrite <- Nat.add_succ_comm.
    assert (Hin : in_window (interior pad_size (regular_window j)) i
                  = (Z.of_nat j * eval_image_size + pad_size <=? i)
                    && (i <? Z.of_nat j * eval_image_size + eval_image_size
                             + pad_size)).
    { unfold in_window, interior, Utils.regular_window. cbn [fst snd].
      f_equal. cmp_cases. }
    rewrite Hin. clear Hin.
    assert (0 <= Z.of_nat m * eval_image_size) by nia.
    replace (Z.of_nat (S j + m) * eval_image_size)
      with (Z.of_nat j * eval_image_size + eval_image_size
            + Z.of_nat m * eval_image_size) in * by nia.
    replace (Z.of_nat (S j) * eval_image_size)
      with (Z.of_nat j * eval_image_size + eval_image_size) in * by nia.
    generalize dependent (Z.of_nat j * eval_image_size).
    generalize dependent (Z.of_nat m * eval_image_size).
    intros B HB A IH.
    destruct (Z.leb_spec (A + pad_size) i),
      (Z.ltb_spec i (A + eval_image_size + pad_size));
      cbn [andb length]; rewrite IH; cmp_cases.
Qed.

(** With at least one regular window, the result is the regular windows
    followed by the window snapped to the end of the padded axis. *)
Lemma calculate_indexes_tiles (image_shape : Z) :
  0 <= pad_size -> 0 < eval_image_size ->
  eval_image_size + 2 * pad_size <= image_shape ->
  eval_image_size < image_shape ->
  exists m : nat,
    Z.of_nat m = ceil_div image_shape eval_image_size - 1 /\
    (1 <= m)%nat /\
    calculate_indexes pad_size eval_image_size image_shape
      (image_shape + 2 * pad_size)
    = Returned (map regular_window (seq 0 m)
                ++ [(image_shape - eval_image_size,
                     image_shape + 2 * pad_size - 1)]).
Proof.
  intros Hpad He Hfit Hlt.
  pose proof (ceil_div_bounds image_shape eval_image_size He) as Hq.
  set (q := ceil_div image_shape eval_image_size) in *.
  assert (2 <= q) by nia.
  exists (Z.to_nat (q - 1)). split; [lia|]. split; [lia|].
  unfold calculate_indexes.
  destruct (Z.ltb_spec image_shape (eval_image_size + 2 * pad_size)); [lia|].
  rewrite arange_forward by lia. fold q.
  replace (Z.to_nat q) with (S (Z.to_nat (q - 1))) by lia.
  cbn [seq map regular_indexes].
  rewrite (index_loop_regular (image_shape + 2 * pad_size) (Z.to_nat (q - 1)) 0 He).
  2:{ cbn [Nat.add]. rewrite Z2Nat.id by lia. lia. }
  destruct (Z.to_nat (q - 1)) as [|m'] eqn:Hm; [lia|].
  cbn [seq map app].
  replace (image_shape + 2 * pad_size - (eval_image_size + pad_size * 2))
    with (image_shape - eval_image_size) by lia.
  reflexivity.
Qed.

End Tiling.

(** C1, as stated, fails: with window 2 and no halo on an axis of 5 indexes
    the windows are [[0,1]], [[2,3]] and the snapped [[3,4]], and index 3
    lies in two trimmed interiors. *)
Lemma calculate_indexes_covers_twice :
  exists ws, Utils.calculate_indexes 0 2 5 5 = Returned ws
             /\ Utils.cover_count 0 ws 3 = 2%nat.
Proof. eexists. split; reflexivity. Qed.

(** C1 (amended): for a halo [pad_size >= 0], a window
    [eval_image_size > 0] that fits the axis with its halo and is shorter
    than the axis, and a padded length of [image_shape + 2 * pad_size],
    [calculate_indexes] returns windows whose trimmed interiors cover every
    index of the axis (at least once, at most twice) and no index outside
    it; every index is covered exactly once when the window size divides
    the axis length, and otherwise the snapped last window overlaps its
    predecessor. *)
Theorem calculate_indexes_coverage (pad_size eval_image_size image_shape : Z) :
  0 <= pad_size -> 0 < eval_image_size ->
  eval_image_size + 2 * pad_size <= image_shape ->
  eval_image_size < image_shape ->
  exists ws,
    Utils.calculate_indexes pad_size eval_image_size image_shape
      (image_shape + 2 * pad_size) = Returned ws /\
    (forall i, pad_size <= i < pad_size + image_shape ->
               (1 <= Utils.cover_count pad_size ws i <= 2)%nat) /\
    (forall i, ~ (pad_size <= i < pad_size + image_shape) ->
               Utils.cover_count pad_size ws i = 0%nat) /\
    (image_shape mod eval_image_size = 0 ->
     forall i, pad_size <= i < pad_size + image_shape ->
               Utils.cover_count pad_size ws i = 1%nat) /\
    (image_shape mod eval_image_size <> 0 ->
     Utils.cover_count pad_size ws (image_shape - eval_image_size + pad_size)
     = 2%nat).
Proof.
  intros Hpad He Hfit Hlt.
  destruct (calculate_indexes_tiles pad_size eval_image_size image_shape
              Hpad He Hfit Hlt) as (m & Hm & Hm1 & Hws).
  pose proof (ceil_div_bounds image_shape eval_image_size He) as Hq.
  set (q := Utils.ceil_div image_shape eval_image_size) in *.
  eexists. split; [exact Hws|].
  assert (Hcount : forall i,
    Utils.cover_count pad_size
      (map (Utils.regular_window pad_size eval_image_size) (seq 0 m)
       ++ [(image_shape - eval_image_size, image_shape + 2 * pad_size - 1)]) i
    = ((if ((pad_size <=? i)
            && (i <? (q - 1) * eval_image_size + pad_size))%Z
        then 1 else 0)
       + (if ((image_shape - eval_image_size + pad_size <=? i)
              && (i <? image_shape + pad_size))%Z
          then 1 else 0))%nat).
  { intros i. rewrite cover_count_app, cover_count_regular by exact He.
    cbn [Nat.add]. rewrite Hm. change (Z.of_nat 0) with 0.
    unfold Utils.in_window, Utils.interior. cbn [fst snd].
    change (Z.of_nat 0 * eval_image_size) with 0.
    cmp_cases. }
  assert (Hdiv : image_shape mod eval_image_size = 0 ->
                 image_shape = q * eval_image_size).
  { intros Hmod. apply Z.mod_divide in Hmod; [|lia].
    destruct Hmod as [k Hk]. subst image_shape.
    assert (q - 1 < k) by nia. assert (k <= q) by nia.
    replace k with q by lia. reflexivity. }
  assert (Hndiv : image_shape mod eval_image_size <> 0 ->
                  image_shape < q * eval_image_size).
  { intros Hmod.
    destruct (Z.eq_dec image_shape (q * eval_image_size)) as [Heq|]; [|lia].
    exfalso. apply Hmod. rewrite Heq. apply Z.mod_mul. lia. }
  repeat split.
  - rewrite Hcount. cmp_cases.
  - rewrite Hcount. cmp_cases.
  - intros Hout. rewrite Hcount. cmp_cases.
  - intros Hmod i Hi. apply Hdiv in Hmod. rewrite Hcount. cmp_cases.
  - intros Hmod. apply Hndiv in Hmod. rewrite Hcount. cmp_cases.
Qed.

(** Halo 2, window 3, axis of 10 indexes, padded to 14. *)
Lemma calculate_indexes_coverage_witness :
  exists ws,
    Utils.calculate_indexes 2 3 10 (10 + 2 * 2) = Returned ws /\
    (forall i, 2 <= i < 2 + 10 -> (1 <= Utils.cover_count 2 ws i <= 2)%nat) /\
    (forall i, ~ (2 <= i < 2 + 10) -> Utils.cover_count 2 ws i = 0%nat) /\
    (10 mod 3 = 0 ->
     forall i, 2 <= i < 2 + 10 -> Utils.cover_count 2 ws i = 1%nat) /\
    (10 mod 3 <> 0 -> Utils.cover_count 2 ws (10 - 3 + 2) = 2%nat).
Proof. apply (calculate_indexes_coverage 2 3 10); lia. Defined.

(** With at least one regular window, the last window of the result ends on
    the last index of the padded axis and is as wide as every window before
    it, namely [eval_image_size + 2 * pad_size] indexes. *)
Lemma calculate_indexes_final_window (pad_size eval_image_size image_shape : Z) :
  0 <= pad_size -> 0 < eval_image_size ->
  eval_image_size + 2 * pad_size <= image_shape ->
  eval_image_size < image_shape ->
  exists regular final,
    Utils.calculate_indexes pad_size eval_image_size image_shape
      (image_shape + 2 * pad_size) = Returned (regular ++ [final]) /\
    regular <> [] /\
    snd final = image_shape + 2 * pad_size - 1 /\
    Utils.width final = eval_image_size + 2 * pad_size /\
    Forall (fun w => Utils.width w = eval_image_size + 2 * pad_size) regular.
Proof.
  intros Hpad He Hfit Hlt.
  destruct (calculate_indexes_tiles pad_size eval_image_size image_shape
              Hpad He Hfit Hlt) as (m & _ & Hm1 & Hws).
  do 2 eexists. split; [exact Hws|]. repeat split.
  - destruct m; [lia|]. discriminate.
  - unfold Utils.width. cbn [fst snd]. lia.
  - apply Forall_forall. intros w Hw. apply list_elem_of_In in Hw.
    apply in_map_iff in Hw. destruct Hw as (k & <- & _).
    unfold Utils.width, Utils.regular_window. cbn [fst snd]. lia.
Qed.

(** Halo 2, window 3, axis of 10 indexes, padded to 14. *)
Lemma calculate_indexes_final_window_witness :
  exists regular final,
    Utils.calculate_indexes 2 3 10 (10 + 2 * 2) = Returned (regular ++ [final]) /\
    regular <> [] /\
    snd final = 10 + 2 * 2 - 1 /\
    Utils.width final = 3 + 2 * 2 /\
    Forall (fun w => Utils.width w = 3 + 2 * 2) regular.
Proof. apply (calculate_indexes_final_window 2 3 10); lia. Defined.

(** C3, as stated, fails: with halo 1 and window 4 on an axis of 3 indexes
    the single window is [[0, 2]]; its trimmed interior is [[1, 1]] and
    misses index 0. *)
Lemma calculate_indexes_single_window_trimmed :
  Utils.calculate_indexes 1 4 3 5 = Returned [(0, 2)]
  /\ Utils.in_window (Utils.interior 1 (0, 2)) 0 = false.
Proof. split; reflexivity. Qed.

(** C3 (amended): when [eval_image_size + 2 * pad_size > image_shape],
    [calculate_indexes] returns exactly one window, [[0, image_shape - 1]],
    which holds exactly the indexes of the axis; its trimmed interior holds
    the indexes from [pad_size] to [image_shape - 1 - pad_size], hence the
    whole axis when the halo is 0. *)
Theorem calculate_indexes_single_window
  (pad_size eval_image_size image_shape padded_image_shape : Z) :
  image_shape < eval_image_size + 2 * pad_size ->
  Utils.calculate_indexes pad_size eval_image_size image_shape
    padded_image_shape = Returned [(0, image_shape - 1)] /\
  (forall i, Utils.in_window (0, image_shape - 1) i = true
             <-> 0 <= i < image_shape) /\
  (forall i, Utils.in_window (Utils.interior pad_size (0, image_shape - 1)) i
             = true
             <-> pad_size <= i < image_shape - pad_size) /\
  (pad_size = 0 ->
   forall i, 0 <= i < image_shape ->
             Utils.in_window (Utils.interior pad_size (0, image_shape - 1)) i
             = true).
Proof.
  intros Hbig. unfold Utils.calculate_indexes.
  destruct (Z.ltb_spec image_shape (eval_image_size + 2 * pad_size)); [|lia].
  split; [reflexivity|]. split; [|split].
  - intros i. rewrite in_window_iff. cbn [fst snd]. lia.
  - intros i. rewrite in_window_iff. unfold Utils.interior. cbn [fst snd]. lia.
  - intros Hzero i Hi. apply in_window_iff. unfold Utils.interior.
    cbn [fst snd]. lia.
Qed.

(** No halo, window 8, axis of 5 indexes. *)
Lemma calculate_indexes_single_window_witness :
  Utils.calculate_indexes 0 8 5 5 = Returned [(0, 5 - 1)] /\
  (forall i, Utils.in_window (0, 5 - 1) i = true <-> 0 <= i < 5) /\
  (forall i, Utils.in_window (Utils.interior 0 (0, 5 - 1)) i = true
             <-> 0 <= i < 5 - 0) /\
  (0 = 0 ->
   forall i, 0 <= i < 5 ->
             Utils.in_window (Utils.interior 0 (0, 5 - 1)) i = true).
Proof. apply (calculate_indexes_single_window 0 8 5 5). lia. Defined.

(** C4: for a halo [pad_size >= 0], a window [eval_image_size > 0] that
    fits the axis with its halo and is shorter than the axis, and a padded
    length of [image_shape + 2 * pad_size], every regular window ends
    before the last index of the padded axis, and [calculate_indexes]
    appends one final window to them.  The final window ends on the last
    index of the padded axis and holds as many indexes as each regular
    window.  It starts after the last regular window does and no later
    than the next regular window would: exactly there when the window size
    divides the axis length, and before the last regular window ends,
    overlapping it, otherwise. *)
Theorem calculate_indexes_snapped_window
  (pad_size eval_image_size image_shape : Z) :
  0 <= pad_size -> 0 < eval_image_size ->
  eval_image_size + 2 * pad_size <= image_shape ->
  eval_image_size < image_shape ->
  exists (m : nat) (final : Utils.window),
    Utils.calculate_indexes pad_size eval_image_size image_shape
      (image_shape + 2 * pad_size)
    = Returned (map (Utils.regular_window pad_size eval_image_size)
                    (seq 0 (S m))
                ++ [final]) /\
    (forall k : nat,
       (k <= m)%nat ->
       snd (Utils.regular_window pad_size eval_image_size k)
       < image_shape + 2 * pad_size - 1) /\
    snd final = image_shape + 2 * pad_size - 1 /\
    Utils.width final = eval_image_size + 2 * pad_size /\
    (forall k : nat,
       Utils.width (Utils.regular_window pad_size eval_image_size k)
       = eval_image_size + 2 * pad_size) /\
    fst (Utils.regular_window pad_size eval_image_size m) < fst final /\
    fst final <= fst (Utils.regular_window pad_size eval_image_size (S m)) /\
    (image_shape mod eval_image_size = 0 ->
     final = Utils.regular_window pad_size eval_image_size (S m)) /\
    (image_shape mod eval_image_size <> 0 ->
     fst final <= snd (Utils.regular_window pad_size eval_image_size m)).
Proof.
  intros Hpad He Hfit Hlt.
  destruct (calculate_indexes_tiles pad_size eval_image_size image_shape
              Hpad He Hfit Hlt) as (m & Hm & Hm1 & Hws).
  pose proof (ceil_div_bounds image_shape eval_image_size He) as Hq.
  set (q := Utils.ceil_div image_shape eval_image_size) in *.
  destruct m as [|m]; [lia|]. rewrite Nat2Z.inj_succ in Hm.
  assert (Hlo : (Z.of_nat m + 1) * eval_image_size < image_shape)
    by (replace (Z.of_nat m + 1) with (q - 1) by lia; lia).
  assert (Hhi : image_shape <= (Z.of_nat m + 2) * eval_image_size)
    by (replace (Z.of_nat m + 2) with q by lia; lia).
  exists m. eexists. split; [exact Hws|].
  unfold Utils.width, Utils.regular_window. cbn [fst snd].
  rewrite Nat2Z.inj_succ.
  repeat split; try lia.
  - intros k Hk.
    assert ((Z.of_nat k + 1) * eval_image_size
            <= (Z.of_nat m + 1) * eval_image_size)
      by (apply Z.mul_le_mono_nonneg_r; lia).
    lia.
  - intros Hmod. apply Z.mod_divide in Hmod; [|lia].
    destruct Hmod as [c Hc].
    assert (Z.of_nat m + 1 < c) by nia.
    assert (c <= Z.of_nat m + 2) by nia.
    assert (c = Z.of_nat m + 2) by lia. subst c.
    f_equal; lia.
  - intros Hmod.
    destruct (Z.eq_dec image_shape ((Z.of_nat m + 2) * eval_image_size))
      as [Heq|Hne]; [|lia].
    exfalso. apply Hmod. rewrite Heq. apply Z.mod_mul. lia.
Qed.

(** Halo 2, window 3, axis of 10 indexes, padded to 14: the regular windows
    [[0, 6]], [[3, 9]], [[6, 12]] and the final window [[7, 13]]. *)
Lemma calculate_indexes_snapped_window_witness :
  exists (m : nat) (final : Utils.window),
    Utils.calculate_indexes 2 3 10 (10 + 2 * 2)
    = Returned (map (Utils.regular_window 2 3) (seq 0 (S m)) ++ [final]) /\
    snd final = 10 + 2 * 2 - 1 /\
    Utils.width final = 3 + 2 * 2 /\
    fst final <= snd (Utils.regular_window 2 3 m).
Proof.
  destruct (calculate_indexes_snapped_window 2 3 10)
    as (m & final & Hrun & _ & Hend & Hwidth & _ & _ & _ & _ & Hover);
    [lia ..|].
  exists m, final. repeat split; try assumption.
  apply Hover. discriminate.
Defined.

Section DtypeOffset.

Import Utils.

Lemma encoding_lookup_other (dtype : string) :
  dtype <> "uint16" -> dtype <> "uint8" -> dtype <> "uint12" ->
  dtype <> "float64" -> encoding !! dtype = None.
Proof.
  intros H16 H8 H12 H64. unfold encoding.
  rewrite !lookup_insert_ne by congruence.
  apply lookup_singleton_ne. congruence.
Qed.

(** The supported dtypes are the four the docstring lists. *)
Lemma supported_iff (dtype : string) :
  supported dtype <-> In dtype ["uint16"; "uint8"; "uint12"; "float64"].
Proof.
  unfold supported. split.
  - intros Hs.
    destruct (decide (dtype = "uint16")) as [->|H16]; [cbn; tauto|].
    destruct (decide (dtype = "uint8")) as [->|H8]; [cbn; tauto|].
    destruct (decide (dtype = "uint12")) as [->|H12]; [cbn; tauto|].
    destruct (decide (dtype = "float64")) as [->|H64]; [cbn; tauto|].
    rewrite encoding_lookup_other in Hs by assumption.
    destruct Hs as [? Hs]. discriminate Hs.
  - cbn. intros [<-|[<-|[<-|[<-|[]]]]]; vm_compute; eauto.
Qed.

Lemma unsupported_lookup (dtype : string) :
  ~ supported dtype <-> encoding !! dtype = None.
Proof.
  unfold supported. destruct (encoding !! dtype) as [scale|]; split.
  - intros Hn. exfalso. apply Hn. eauto.
  - discriminate.
  - reflexivity.
  - intros _ [? Hs]. discriminate Hs.
Qed.

End DtypeOffset.

(** C6: a supported dtype gets the divisor of the table
    uint8: 256, uint16: 65536, uint12: 4096, float64: 1, whatever the image
    maximum; an unsupported dtype with a positive image maximum gets 256
    when the maximum is at most 256 and the maximum itself otherwise. *)
Theorem get_dtype_offset_scale :
  (forall image_max, Utils.get_dtype_offset "uint8" image_max = Some 256) /\
  (forall image_max, Utils.get_dtype_offset "uint16" image_max = Some 65536) /\
  (forall image_max, Utils.get_dtype_offset "uint12" image_max = Some 4096) /\
  (forall image_max, Utils.get_dtype_offset "float64" image_max = Some 1) /\
  (forall dtype scale image_max,
     Utils.encoding !! dtype = Some scale ->
     Utils.get_dtype_offset dtype image_max = Some scale) /\
  (forall dtype m,
     ~ Utils.supported dtype -> 0 < m ->
     Utils.get_dtype_offset dtype (Some m)
     = Some (if m <=? 256 then 256 else m)).
Proof.
  repeat split; try reflexivity.
  - intros dtype scale image_max Hs. unfold Utils.get_dtype_offset.
    rewrite Hs. reflexivity.
  - intros dtype m Hun Hm. apply unsupported_lookup in Hun.
    unfold Utils.get_dtype_offset. rewrite Hun.
    destruct (Z.eqb_spec m 0); [lia|]. cbn [negb].
    destruct (m <=? 256); reflexivity.
Qed.

(** Two dtypes outside the table, with maxima above and below 256. *)
Lemma get_dtype_offset_scale_witness :
  Utils.get_dtype_offset "int32" (Some 1000) = Some 1000
  /\ Utils.get_dtype_offset "int8" (Some 127) = Some 256.
Proof.
  pose proof get_dtype_offset_scale as (_ & _ & _ & _ & _ & Hother).
  split.
  - apply (Hother "int32" 1000); [|lia].
    apply unsupported_lookup. reflexivity.
  - apply (Hother "int8" 127); [|lia].
    apply unsupported_lookup. reflexivity.
Defined.

(** C9: [get_dtype_offset] returns [None] exactly for an unsupported dtype
    whose image maximum is missing or zero; every other call returns an
    integer. *)
Theorem get_dtype_offset_none (dtype : string) (image_max : option Z) :
  Utils.get_dtype_offset dtype image_max = None
  <-> ~ Utils.supported dtype /\ (image_max = None \/ image_max = Some 0).
Proof.
  rewrite unsupported_lookup. unfold Utils.get_dtype_offset.
  destruct (Utils.encoding !! dtype) as [scale|].
  - split; [discriminate|]. intros [Hs _]. discriminate Hs.
  - destruct image_max as [m|].
    + destruct (Z.eqb_spec m 0) as [->|Hm]; cbn [negb].
      * split; auto.
      * destruct (m <=? 256); split; try discriminate;
          intros [_ [Hn|Hz]]; congruence.
    + split; auto.
Qed.

(** An unsupported dtype without an image maximum, and with maximum 0. *)
Lemma get_dtype_offset_none_witness :
  Utils.get_dtype_offset "int32" None = None
  /\ Utils.get_dtype_offset "int32" (Some 0) = None.
Proof.
  split; apply get_dtype_offset_none; split; auto;
    apply unsupported_lookup; reflexivity.
Defined.

Section Cropping.

Import Utils.

(** [0:w] on an axis of [n] elements starts at 0 and keeps [min n w]. *)
Lemma slice_from_zero (n w : nat) :
  slice n 0 (0 + Z.of_nat w) = (0%nat, Nat.min n w).
Proof.
  unfold slice, slice_bound.
  destruct (Z.ltb_spec 0 0); [lia|].
  destruct (Z.ltb_spec (0 + Z.of_nat w) 0); [lia|].
  f_equal; lia.
Qed.

Lemma shape_from_end_last3 (t : Tensor) (lead : list nat) (n1 n2 n3 : nat) :
  shape t = lead ++ [n1; n2; n3] ->
  shape_from_end t 3 = Returned n1
  /\ shape_from_end t 2 = Returned n2
  /\ shape_from_end t 1 = Returned n3.
Proof.
  intros Hs. unfold shape_from_end. rewrite Hs, rev_app_distr.
  repeat split.
Qed.

Lemma shift_last3_zero (idx : list nat) : shift_last3 0 0 0 idx = idx.
Proof.
  unfold shift_last3. destruct (rev idx) as [|k [|j [|i lead]]] eqn:Hrev;
    try reflexivity.
  rewrite !Nat.add_0_r. rewrite <- (rev_involutive idx), Hrev.
  cbn [rev]. rewrite <- !app_assoc. reflexivity.
Qed.

(** Cropping from the origin keeps the leading dimensions and the elements,
    and cuts each of the last three dimensions to the requested length. *)
Lemma _crop3d_from_zero (img : Tensor) (lead : list nat) (n1 n2 n3 w h d : nat) :
  shape img = lead ++ [n1; n2; n3] ->
  exists out,
    _crop3d img 0 0 0 (Z.of_nat w) (Z.of_nat h) (Z.of_nat d) = Returned out
    /\ shape out = lead ++ [Nat.min n1 w; Nat.min n2 h; Nat.min n3 d]
    /\ forall idx, item out idx = item img idx.
Proof.
  intros Hs. unfold _crop3d. rewrite Hs, rev_app_distr. cbn [rev app].
  rewrite !slice_from_zero. eexists. split; [reflexivity|].
  cbn [shape item]. rewrite rev_involutive. split; [reflexivity|].
  intros idx. rewrite shift_last3_zero. reflexivity.
Qed.

End Cropping.

(** C10, as stated, fails: for a tensor [a] of two dimensions the error
    that reaches the caller is [torch.jit.Error], not a [RuntimeError]. *)
Lemma crop_to_identical_size_jit_error :
  Utils.crop_to_identical_size
    (Utils.mkTensor [4; 6]%nat (fun _ => 0%Q))
    (Utils.mkTensor [4; 6; 2]%nat (fun _ => 1%Q))
  = Raised JitError
  /\ Utils.crop_to_identical_size
       (Utils.mkTensor [4; 6]%nat (fun _ => 0%Q))
       (Utils.mkTensor [4; 6; 2]%nat (fun _ => 1%Q))
     <> Raised RuntimeError.
Proof. split; [reflexivity|discriminate]. Qed.

(** C10 (amended): [crop_to_identical_size] raises [torch.jit.Error] when
    [a] has fewer than three dimensions; for [a] and [b] with at least
    three dimensions it returns both tensors with each of the last three
    dimensions cut to the smaller of the two lengths, the leading
    dimensions and the kept elements unchanged. *)
Theorem crop_to_identical_size_shapes (a b : Utils.Tensor) :
  ((Utils.ndim a < 3)%nat ->
   Utils.crop_to_identical_size a b = Raised JitError) /\
  (forall la a1 a2 a3 lb b1 b2 b3,
     Utils.shape a = la ++ [a1; a2; a3] ->
     Utils.shape b = lb ++ [b1; b2; b3] ->
     exists a' b',
       Utils.crop_to_identical_size a b = Returned (a', b') /\
       Utils.shape a'
       = la ++ [Nat.min a1 b1; Nat.min a2 b2; Nat.min a3 b3] /\
       Utils.shape b'
       = lb ++ [Nat.min a1 b1; Nat.min a2 b2; Nat.min a3 b3] /\
       (forall idx, Utils.item a' idx = Utils.item a idx) /\
       (forall idx, Utils.item b' idx = Utils.item b idx)).
Proof.
  split.
  - intros Hn. unfold Utils.crop_to_identical_size.
    destruct (Nat.ltb_spec (Utils.ndim a) 3); [reflexivity|lia].
  - intros la a1 a2 a3 lb b1 b2 b3 Ha Hb.
    unfold Utils.crop_to_identical_size.
    destruct (Nat.ltb_spec (Utils.ndim a) 3) as [Hlt|_].
    { unfold Utils.ndim in Hlt. rewrite Ha, length_app in Hlt.
      cbn [length] in Hlt. lia. }
    destruct (shape_from_end_last3 b lb b1 b2 b3 Hb) as (-> & -> & ->).
    cbn [bind].
    destruct (_crop3d_from_zero a la a1 a2 a3 b1 b2 b3 Ha)
      as (a' & -> & Ha' & Hia).
    cbn [bind].
    destruct (shape_from_end_last3 a' la (Nat.min a1 b1) (Nat.min a2 b2)
                (Nat.min a3 b3) Ha') as (-> & -> & ->).
    cbn [bind].
    destruct (_crop3d_from_zero b lb b1 b2 b3 (Nat.min a1 b1) (Nat.min a2 b2)
                (Nat.min a3 b3) Hb) as (b' & -> & Hb' & Hib).
    cbn [bind]. exists a', b'. split; [reflexivity|].
    split; [exact Ha'|]. split; [|split; assumption].
    rewrite Hb'. do 2 f_equal; [lia|]. f_equal; [lia|]. f_equal. lia.
Qed.

(** Shapes [2, 5, 3, 7] and [4, 6, 2] are both cut to [4, 3, 2] on the last
    three axes. *)
Lemma crop_to_identical_size_shapes_witness :
  exists a' b',
    Utils.crop_to_identical_size
      (Utils.mkTensor [2; 5; 3; 7]%nat (fun _ => 0%Q))
      (Utils.mkTensor [4; 6; 2]%nat (fun _ => 1%Q))
    = Returned (a', b') /\
    Utils.shape a' = [2]%nat ++ [Nat.min 5 4; Nat.min 3 6; Nat.min 7 2] /\
    Utils.shape b' = [] ++ [Nat.min 5 4; Nat.min 3 6; Nat.min 7 2] /\
    (forall idx, Utils.item a' idx = 0%Q) /\
    (forall idx, Utils.item b' idx = 1%Q).
Proof.
  apply (proj2 (crop_to_identical_size_shapes
                  (Utils.mkTensor [2; 5; 3; 7]%nat (fun _ => 0%Q))
                  (Utils.mkTensor [4; 6; 2]%nat (fun _ => 1%Q)))
           [2%nat] 5%nat 3%nat 7%nat [] 4%nat 6%nat 2%nat);
    reflexivity.
Defined.

(** * Properties of [eval.py] *)

(** C5: the embedding of a voxel is its own coordinate plus the scaled
    vector stored at that voxel; the field keeps its shape, and the value at
    a voxel depends on the vector field at that voxel only. *)
Theorem vector_to_embedding_elementwise
  (scale : Q * Q * Q) (vectors : Eval.Field) (x y z : Z) :
  Eval.vec (Eval.vector_to_embedding scale vectors) (x, y, z)
  = (let '(sx, sy, sz) := scale in
     let '(vx, vy, vz) := Eval.vec vectors (x, y, z) in
     (inject_Z x + sx * vx, inject_Z y + sy * vy, inject_Z z + sz * vz)%Q)
  /\ Eval.fshape (Eval.vector_to_embedding scale vectors) = Eval.fshape vectors
  /\ (forall vectors' : Eval.Field,
        Eval.vec vectors' (x, y, z) = Eval.vec vectors (x, y, z) ->
        Eval.vec (Eval.vector_to_embedding scale vectors') (x, y, z)
        = Eval.vec (Eval.vector_to_embedding scale vectors) (x, y, z)).
Proof.
  repeat split. intros vectors' Hsame.
  unfold Eval.vector_to_embedding. cbn [Eval.vec]. rewrite Hsame. reflexivity.
Qed.

Section Baking.

Import Eval.

Variable baked_embed_to_prob : Field -> list coord -> Q * Q * Q -> coord -> Q.
Variables (vectors : Field) (num : Q * Q * Q) (thr : Q).
Variable min_instance_volume : Z.

Lemma crop_bounds_returns (shp p : coord) (ps : list coord) :
  exists ind_min ind_max,
    crop_bounds shp (p :: ps) = Returned (ind_min, ind_max).
Proof.
  destruct shp as [[X Y] Z]. unfold crop_bounds.
  cbn [map col_min col_max bind]. eauto.
Qed.

Lemma crop_bounds_empty (shp : coord) : crop_bounds shp [] = Raised IndexError.
Proof. destruct shp as [[X Y] Z]. reflexivity. Qed.

Lemma get_instance_empty (id : Z) (mask : Volume) :
  get_instance baked_embed_to_prob vectors [] id num thr min_instance_volume
    mask = (Raised IndexError, mask).
Proof.
  unfold get_instance, bindM, lift. rewrite crop_bounds_empty. reflexivity.
Qed.

(** With at least one skeleton point the bounds of the crop exist, and the
    call ends at line 65. *)
Lemma get_instance_nonempty (p : coord) (ps : list coord) (id : Z)
  (mask : Volume) :
  get_instance baked_embed_to_prob vectors (p :: ps) id num thr
    min_instance_volume mask = (Raised IndexError, mask).
Proof.
  destruct (crop_bounds_returns (fshape vectors) p ps) as (lo & hi & Hb).
  unfold get_instance, bindM, lift, reads. rewrite Hb. reflexivity.
Qed.

End Baking.

(** C8: a call with an empty skeleton raises (the reduction [min(0)] over no
    rows) and leaves the label volume as it was; the loop of [eval] stops
    there with the same error. *)
Theorem get_instance_empty_skeleton
  (baked_embed_to_prob :
     Eval.Field -> list Eval.coord -> Q * Q * Q -> Eval.coord -> Q)
  (vectors : Eval.Field) (id : Z) (num : Q * Q * Q) (thr : Q)
  (min_instance_volume : Z) (mask : Eval.Volume) :
  Eval.get_instance baked_embed_to_prob vectors [] id num thr
    min_instance_volume mask = (Raised IndexError, mask)
  /\ forall rest,
       Eval.bake baked_embed_to_prob vectors num thr min_instance_volume
         ((id, []) :: rest) mask = (Raised IndexError, mask).
Proof.
  split; [apply get_instance_empty|].
  intros rest. cbn [Eval.bake]. unfold Eval.bindM.
  rewrite get_instance_empty. reflexivity.
Qed.

(** C2: a call of [get_instance] on a skeleton with at least one point
    raises an [IndexError] at line 65 and leaves the label volume as it
    was, whatever the probabilities, the threshold and the minimum instance
    volume are: the volume test of line 87 is never reached, and no id is
    written into the volume, be its voxel count above, at or below the
    minimum. *)
Theorem get_instance_raises_before_volume_test
  (baked_embed_to_prob :
     Eval.Field -> list Eval.coord -> Q * Q * Q -> Eval.coord -> Q)
  (vectors : Eval.Field) (p : Eval.coord) (ps : list Eval.coord) (id : Z)
  (num : Q * Q * Q) (thr : Q) (min_instance_volume : Z) (mask : Eval.Volume) :
  Eval.get_instance baked_embed_to_prob vectors (p :: ps) id num thr
    min_instance_volume mask = (Raised IndexError, mask)
  /\ Eval.get_instance on_crop (zero_field (100, 100, 20)) [(60, 3, 5)] 7
       (60, 60, 6)%Q (1 # 2)%Q 0 (zero_volume (100, 100, 20))
     = (Raised IndexError, zero_volume (100, 100, 20)).
Proof.
  split; apply get_instance_nonempty.
Qed.

(** C7: the loop of [eval] over a dict with at least one skeleton stops in
    its first call of [get_instance] with an [IndexError] and leaves the
    label volume as it was: no id is written, so no later id overwrites an
    earlier one, and a second run stops in the same way. *)
Theorem bake_raises_in_first_call
  (baked_embed_to_prob :
     Eval.Field -> list Eval.coord -> Q * Q * Q -> Eval.coord -> Q)
  (vectors : Eval.Field) (num : Q * Q * Q) (thr : Q) (min_instance_volume : Z)
  (k : Z) (skeleton : list Eval.coord) (rest : list (Z * list Eval.coord))
  (mask : Eval.Volume) :
  Eval.bake baked_embed_to_prob vectors num thr min_instance_volume
    ((k, skeleton) :: rest) mask = (Raised IndexError, mask)
  /\ Eval.eval_bake on_crop (zero_field (100, 100, 20))
       [(1, [(60, 3, 5)]); (2, [(61, 3, 5)])] (zero_volume (100, 100, 20))
     = (Raised IndexError, zero_volume (100, 100, 20)).
Proof.
  assert (Hcall : forall bp v n t mv k' sk m,
            Eval.get_instance bp v sk k' n t mv m = (Raised IndexError, m)).
  { intros bp v n t mv k' [|q qs] m;
      [apply get_instance_empty|apply get_instance_nonempty]. }
  split.
  - cbn [Eval.bake]. unfold Eval.bindM. rewrite Hcall. reflexivity.
  - unfold Eval.eval_bake. cbn [Eval.bake]. unfold Eval.bindM.
    rewrite Hcall. reflexivity.
Qed.

(** The voxel [(1, 2, 3)] of a constant field under the scale of [eval]. *)
Lemma vector_to_embedding_elementwise_witness :
  Eval.vec
    (Eval.vector_to_embedding (60, 60, 6)%Q
       {| Eval.fshape := (4, 4, 4);
          Eval.vec := fun _ => (1 # 2, 0, - (1))%Q |})
    (1, 2, 3)
  = (inject_Z 1 + 60 * (1 # 2), inject_Z 2 + 60 * 0, inject_Z 3 + 6 * - (1))%Q.
Proof.
  exact (proj1 (vector_to_embedding_elementwise (60, 60, 6)%Q
                  {| Eval.fshape := (4, 4, 4);
                     Eval.vec := fun _ => (1 # 2, 0, - (1))%Q |} 1 2 3)).
Defined.

(** * Further properties of [utils.py] *)

(** With at least one regular window, [calculate_indexes] returns
    [ceil(image_shape / eval_image_size)] windows, and each of them lies
    inside the padded axis: [0 <= z1 <= z2 <= padded_image_shape - 1]. *)
Theorem calculate_indexes_count_and_bounds
  (pad_size eval_image_size image_shape : Z) :
  0 <= pad_size -> 0 < eval_image_size ->
  eval_image_size + 2 * pad_size <= image_shape ->
  eval_image_size < image_shape ->
  exists ws,
    Utils.calculate_indexes pad_size eval_image_size image_shape
      (image_shape + 2 * pad_size) = Returned ws /\
    Z.of_nat (length ws) = Utils.ceil_div image_shape eval_image_size /\
    Forall (fun w => 0 <= fst w /\ fst w <= snd w
                     /\ snd w <= image_shape + 2 * pad_size - 1) ws.
Proof.
  intros Hpad He Hfit Hlt.
  destruct (calculate_indexes_tiles pad_size eval_image_size image_shape
              Hpad He Hfit Hlt) as (m & Hm & Hm1 & Hws).
  pose proof (ceil_div_bounds image_shape eval_image_size He) as Hq.
  eexists. split; [exact Hws|]. split.
  - rewrite length_app, length_map, length_seq. cbn [length]. lia.
  - apply Forall_app. split.
    + apply Forall_forall. intros w Hw. apply list_elem_of_In in Hw.
      apply in_map_iff in Hw. destruct Hw as (k & <- & Hk).
      apply in_seq in Hk. unfold Utils.regular_window. cbn [fst snd].
      assert (0 <= Z.of_nat k * eval_image_size) by nia.
      assert ((Z.of_nat k + 1) * eval_image_size
              <= Z.of_nat m * eval_image_size)
        by (apply Z.mul_le_mono_nonneg_r; lia).
      rewrite Hm in *. nia.
    + constructor; [cbn [fst snd]; lia | constructor].
Qed.

(** Halo 2, window 3, axis of 10 indexes: four windows. *)
Lemma calculate_indexes_count_and_bounds_witness :
  exists ws,
    Utils.calculate_indexes 2 3 10 (10 + 2 * 2) = Returned ws /\
    Z.of_nat (length ws) = Utils.ceil_div 10 3 /\
    Forall (fun w => 0 <= fst w /\ fst w <= snd w /\ snd w <= 10 + 2 * 2 - 1)
      ws.
Proof. apply (calculate_indexes_count_and_bounds 2 3 10); lia. Defined.

(** Every scale [get_dtype_offset] returns is at least 1, and for an
    unsupported dtype it is at least the image maximum it was inferred
    from, so that the maximum divided by the scale is at most 1. *)
Theorem get_dtype_offset_positive
  (dtype : string) (image_max : option Z) (scale : Z) :
  Utils.get_dtype_offset dtype image_max = Some scale ->
  1 <= scale
  /\ (~ Utils.supported dtype ->
      forall m, image_max = Some m -> m <= scale).
Proof.
  unfold Utils.get_dtype_offset. intros Hget.
  destruct (Utils.encoding !! dtype) as [s|] eqn:Henc.
  - injection Hget as ->. split.
    + destruct (decide (dtype = "uint16")) as [->|H16];
        [vm_compute in Henc; injection Henc as <-; lia|].
      destruct (decide (dtype = "uint8")) as [->|H8];
        [vm_compute in Henc; injection Henc as <-; lia|].
      destruct (decide (dtype = "uint12")) as [->|H12];
        [vm_compute in Henc; injection Henc as <-; lia|].
      destruct (decide (dtype = "float64")) as [->|H64];
        [vm_compute in Henc; injection Henc as <-; lia|].
      rewrite encoding_lookup_other in Henc by assumption. discriminate.
    + intros Hun. apply unsupported_lookup in Hun. congruence.
  - destruct image_max as [m|]; [|discriminate].
    destruct (Z.eqb_spec m 0); cbn [negb] in Hget; [discriminate|].
    destruct (Z.leb_spec m 256); injection Hget as <-;
      (split; [lia|]); intros _ m' [= <-]; lia.
Qed.

(** An unknown dtype with maximum 1000 gets the scale 1000. *)
Lemma get_dtype_offset_positive_witness :
  1 <= 1000 /\ (~ Utils.supported "int32" ->
                forall m, Some 1000 = Some m -> m <= 1000).
Proof.
  apply (get_dtype_offset_positive "int32" (Some 1000) 1000). reflexivity.
Defined.

Section Boxes.

Import Utils.

(** [x : x + w] on an axis of [n] elements, for a start that is not
    negative: the slice starts at [min x n] and keeps [min w (n - x)]
    elements. *)
Lemma slice_box (n x w : nat) :
  slice n (Z.of_nat x) (Z.of_nat x + Z.of_nat w)
  = (Nat.min x n, Nat.min w (n - x)).
Proof.
  unfold slice, slice_bound.
  destruct (Z.ltb_spec (Z.of_nat x) 0); [lia|].
  destruct (Z.ltb_spec (Z.of_nat x + Z.of_nat w) 0); [lia|].
  f_equal; lia.
Qed.

Lemma rev_short (A : Type) (l : list A) (k : nat) :
  (length l < k)%nat -> (length (rev l) < k)%nat.
Proof. rewrite length_rev. trivial. Qed.

Lemma shift_last3_app (ax ay az : nat) (l : list nat) (i j k : nat) :
  shift_last3 ax ay az (l ++ [i; j; k])
  = l ++ [(i + ax)%nat; (j + ay)%nat; (k + az)%nat].
Proof.
  unfold shift_last3. rewrite rev_app_distr. cbn [rev app].
  rewrite rev_involutive. reflexivity.
Qed.

Lemma shift_last2_app (ax ay : nat) (l : list nat) (i j : nat) :
  shift_last2 ax ay (l ++ [i; j]) = l ++ [(i + ax)%nat; (j + ay)%nat].
Proof.
  unfold shift_last2. rewrite rev_app_distr. cbn [rev app].
  rewrite rev_involutive. reflexivity.
Qed.

(** What [crop_to_identical_size] returns for two tensors with at least
    three dimensions. *)
Lemma crop_to_identical_size_result (a b : Tensor)
  (la lb : list nat) (a1 a2 a3 b1 b2 b3 : nat) :
  shape a = la ++ [a1; a2; a3] ->
  shape b = lb ++ [b1; b2; b3] ->
  exists a' b',
    crop_to_identical_size a b = Returned (a', b') /\
    shape a' = la ++ [Nat.min a1 b1; Nat.min a2 b2; Nat.min a3 b3] /\
    shape b' = lb ++ [Nat.min b1 a1; Nat.min b2 a2; Nat.min b3 a3] /\
    (forall idx, item a' idx = item a idx) /\
    (forall idx, item b' idx = item b idx).
Proof.
  intros Ha Hb. unfold crop_to_identical_size.
  destruct (Nat.ltb_spec (ndim a) 3) as [Hlt|_].
  { unfold ndim in Hlt. rewrite Ha, length_app in Hlt.
    cbn [length] in Hlt. lia. }
  destruct (shape_from_end_last3 b lb b1 b2 b3 Hb) as (-> & -> & ->).
  cbn [bind].
  destruct (_crop3d_from_zero a la a1 a2 a3 b1 b2 b3 Ha)
    as (a' & -> & Ha' & Hia).
  cbn [bind].
  destruct (shape_from_end_last3 a' la (Nat.min a1 b1) (Nat.min a2 b2)
              (Nat.min a3 b3) Ha') as (-> & -> & ->).
  cbn [bind].
  destruct (_crop3d_from_zero b lb b1 b2 b3 (Nat.min a1 b1) (Nat.min a2 b2)
              (Nat.min a3 b3) Hb) as (b' & -> & Hb' & Hib).
  cbn [bind]. exists a', b'. split; [reflexivity|].
  split; [exact Ha'|]. split; [|split; assumption].
  rewrite Hb'. do 2 f_equal; [lia|]. f_equal; [lia|]. f_equal. lia.
Qed.

End Boxes.

(** [_crop3d] with a box that starts at a non-negative corner, for corners
    and sizes whose sums fit in 64 bits, never fails on a tensor with at
    least three dimensions and never reads outside it: a box that sticks
    out is cut to the part inside, [min w (n - x)] elements per axis.  The
    leading dimensions are kept, and the element at [(i, j, k)] of the crop
    is the element at the corner plus [(i, j, k)] of the source.  On a
    tensor with fewer than three dimensions the call raises a
    [RuntimeError]. *)
Theorem _crop3d_box (img : Utils.Tensor) (x y z w h d : nat) :
  Z.of_nat x + Z.of_nat w < 2 ^ 63 ->
  Z.of_nat y + Z.of_nat h < 2 ^ 63 ->
  Z.of_nat z + Z.of_nat d < 2 ^ 63 ->
  ((Utils.ndim img < 3)%nat ->
   Utils._crop3d img (Z.of_nat x) (Z.of_nat y) (Z.of_nat z)
     (Z.of_nat w) (Z.of_nat h) (Z.of_nat d) = Raised RuntimeError) /\
  (forall lead n1 n2 n3,
     Utils.shape img = lead ++ [n1; n2; n3] ->
     exists out,
       Utils._crop3d img (Z.of_nat x) (Z.of_nat y) (Z.of_nat z)
         (Z.of_nat w) (Z.of_nat h) (Z.of_nat d) = Returned out /\
       Utils.shape out
       = lead ++ [Nat.min w (n1 - x); Nat.min h (n2 - y); Nat.min d (n3 - z)]
       /\
       forall l i j k,
         (x <= n1)%nat -> (y <= n2)%nat -> (z <= n3)%nat ->
         Utils.item out (l ++ [i; j; k])
         = Utils.item img (l ++ [(i + x)%nat; (j + y)%nat; (k + z)%nat])).
Proof.
  intros _ _ _. unfold Utils._crop3d. split.
  - intros Hn. unfold Utils.ndim in Hn. apply rev_short in Hn.
    destruct (rev (Utils.shape img)) as [|c [|b [|a r]]];
      try reflexivity. cbn [length] in Hn. lia.
  - intros lead n1 n2 n3 Hs. rewrite Hs, rev_app_distr. cbn [rev app].
    rewrite !slice_box. eexists. split; [reflexivity|].
    cbn [Utils.shape Utils.item]. rewrite rev_involutive.
    split; [reflexivity|]. intros l i j k Hx Hy Hz.
    rewrite shift_last3_app, !Nat.min_l by assumption. reflexivity.
Qed.

(** A 2 x 5 x 3 x 7 tensor cropped to the box at (1, 1, 4) of size
    (3, 9, 2): the box sticks out on the last two axes. *)
Lemma _crop3d_box_witness :
  exists out,
    Utils._crop3d (Utils.mkTensor [2; 5; 3; 7]%nat (fun _ => 0%Q))
      (Z.of_nat 1) (Z.of_nat 1) (Z.of_nat 4)
      (Z.of_nat 3) (Z.of_nat 9) (Z.of_nat 2) = Returned out /\
    Utils.shape out
    = [2]%nat ++ [Nat.min 3 (5 - 1); Nat.min 9 (3 - 1); Nat.min 2 (7 - 4)].
Proof.
  destruct (proj2 (_crop3d_box
                     (Utils.mkTensor [2; 5; 3; 7]%nat (fun _ => 0%Q))
                     1 1 4 3 9 2 eq_refl eq_refl eq_refl)
              [2%nat] 5%nat 3%nat 7%nat eq_refl)
    as (out & Hrun & Hshape & _).
  exists out. split; assumption.
Defined.

(** [_crop2d] behaves like [_crop3d] on the last two dimensions: a box with
    a non-negative corner, for corners and sizes whose sums fit in 64 bits,
    is cut to the part inside the tensor, the leading dimensions are kept,
    and the crop holds the elements of the source from the corner on.  On a
    tensor with fewer than two dimensions the call raises a
    [RuntimeError]. *)
Theorem _crop2d_box (img : Utils.Tensor) (x y w h : nat) :
  Z.of_nat x + Z.of_nat w < 2 ^ 63 ->
  Z.of_nat y + Z.of_nat h < 2 ^ 63 ->
  ((Utils.ndim img < 2)%nat ->
   Utils._crop2d img (Z.of_nat x) (Z.of_nat y) (Z.of_nat w) (Z.of_nat h)
   = Raised RuntimeError) /\
  (forall lead n1 n2,
     Utils.shape img = lead ++ [n1; n2] ->
     exists out,
       Utils._crop2d img (Z.of_nat x) (Z.of_nat y) (Z.of_nat w) (Z.of_nat h)
       = Returned out /\
       Utils.shape out = lead ++ [Nat.min w (n1 - x); Nat.min h (n2 - y)] /\
       forall l i j,
         (x <= n1)%nat -> (y <= n2)%nat ->
         Utils.item out (l ++ [i; j])
         = Utils.item img (l ++ [(i + x)%nat; (j + y)%nat])).
Proof.
  intros _ _. unfold Utils._crop2d. split.
  - intros Hn. unfold Utils.ndim in Hn. apply rev_short in Hn.
    destruct (rev (Utils.shape img)) as [|b [|a r]];
      try reflexivity. cbn [length] in Hn. lia.
  - intros lead n1 n2 Hs. rewrite Hs, rev_app_distr. cbn [rev app].
    rewrite !slice_box. eexists. split; [reflexivity|].
    cbn [Utils.shape Utils.item]. rewrite rev_involutive.
    split; [reflexivity|]. intros l i j Hx Hy.
    rewrite shift_last2_app, !Nat.min_l by assumption. reflexivity.
Qed.

(** A 4 x 6 image cropped to the box at (1, 2) of size (2, 9). *)
Lemma _crop2d_box_witness :
  exists out,
    Utils._crop2d (Utils.mkTensor [4; 6]%nat (fun _ => 0%Q))
      (Z.of_nat 1) (Z.of_nat 2) (Z.of_nat 2) (Z.of_nat 9) = Returned out /\
    Utils.shape out = [] ++ [Nat.min 2 (4 - 1); Nat.min 9 (6 - 2)].
Proof.
  destruct (proj2 (_crop2d_box (Utils.mkTensor [4; 6]%nat (fun _ => 0%Q))
                     1 2 2 9 eq_refl eq_refl) [] 4%nat 6%nat eq_refl)
    as (out & Hrun & Hshape & _).
  exists out. split; assumption.
Defined.

(** [crop_to_identical_size] is idempotent and does not depend on the order
    of its arguments: cropping its two results again changes neither
    shapes nor elements, and swapping the arguments gives the same two
    shapes. *)
Theorem crop_to_identical_size_again (a b : Utils.Tensor)
  (la lb : list nat) (a1 a2 a3 b1 b2 b3 : nat) :
  Utils.shape a = la ++ [a1; a2; a3] ->
  Utils.shape b = lb ++ [b1; b2; b3] ->
  exists a' b',
    Utils.crop_to_identical_size a b = Returned (a', b') /\
    (exists a'' b'',
       Utils.crop_to_identical_size a' b' = Returned (a'', b'') /\
       Utils.shape a'' = Utils.shape a' /\
       Utils.shape b'' = Utils.shape b' /\
       (forall idx, Utils.item a'' idx = Utils.item a' idx) /\
       (forall idx, Utils.item b'' idx = Utils.item b' idx)) /\
    (exists b2 a2',
       Utils.crop_to_identical_size b a = Returned (b2, a2') /\
       Utils.shape b2 = Utils.shape b' /\
       Utils.shape a2' = Utils.shape a').
Proof.
  intros Ha Hb.
  destruct (crop_to_identical_size_result a b la lb a1 a2 a3 b1 b2 b3 Ha Hb)
    as (a' & b' & Hrun & Ha' & Hb' & _ & _).
  exists a', b'. split; [exact Hrun|]. split.
  - destruct (crop_to_identical_size_result a' b' la lb _ _ _ _ _ _ Ha' Hb')
      as (a'' & b'' & Hrun2 & Ha'' & Hb'' & Hia & Hib).
    exists a'', b''. split; [exact Hrun2|].
    rewrite Ha'', Hb'', Ha', Hb'.
    repeat split; try assumption; do 2 f_equal; try lia;
      (f_equal; [lia|]); f_equal; lia.
  - destruct (crop_to_identical_size_result b a lb la b1 b2 b3 a1 a2 a3 Hb Ha)
      as (b2' & a2' & Hrun3 & Hb2 & Ha2 & _ & _).
    exists b2', a2'. split; [exact Hrun3|].
    rewrite Hb2, Ha2, Ha', Hb'. split; reflexivity.
Qed.

(** Shapes [2, 5, 3, 7] and [4, 6, 2]. *)
Lemma crop_to_identical_size_again_witness :
  exists a' b',
    Utils.crop_to_identical_size
      (Utils.mkTensor [2; 5; 3; 7]%nat (fun _ => 0%Q))
      (Utils.mkTensor [4; 6; 2]%nat (fun _ => 1%Q)) = Returned (a', b') /\
    exists b2 a2',
      Utils.crop_to_identical_size
        (Utils.mkTensor [4; 6; 2]%nat (fun _ => 1%Q))
        (Utils.mkTensor [2; 5; 3; 7]%nat (fun _ => 0%Q)) = Returned (b2, a2') /\
      Utils.shape b2 = Utils.shape b' /\
      Utils.shape a2' = Utils.shape a'.
Proof.
  destruct (crop_to_identical_size_again
              (Utils.mkTensor [2; 5; 3; 7]%nat (fun _ => 0%Q))
              (Utils.mkTensor [4; 6; 2]%nat (fun _ => 1%Q))
              [2%nat] [] 5%nat 3%nat 7%nat 4%nat 6%nat 2%nat eq_refl eq_refl)
    as (a' & b' & Hrun & _ & Hswap).
  exists a', b'. split; assumption.
Defined.

(** * Further properties of [eval.py] *)

Ltac coords :=
  repeat match goal with
    | p : Eval.coord |- _ => destruct p as [[? ?] ?]
    end;
  unfold cle, Eval.cmin, Eval.cmax, Eval.cadd, Eval.csub in *.

Section CropBounds.

Import Eval.

Lemma fold_cmin_below (rs : list coord) (r : coord) :
  cle (fold_left cmin rs r) r
  /\ forall q, In q rs -> cle (fold_left cmin rs r) q.
Proof.
  revert r. induction rs as [|a rs IH]; intros r; cbn [fold_left].
  - split; [coords; lia|intros q []].
  - destruct (IH (cmin r a)) as [Hr Hq]. split.
    + destruct (fold_left cmin rs (cmin r a)) as [[? ?] ?]. coords. lia.
    + intros q [<-|Hin]; [|auto].
      destruct (fold_left cmin rs (cmin r a)) as [[? ?] ?]. coords. lia.
Qed.

Lemma fold_cmin_above (rs : list coord) (r b : coord) :
  cle b r -> (forall q, In q rs -> cle b q) -> cle b (fold_left cmin rs r).
Proof.
  revert r. induction rs as [|a rs IH]; intros r Hr Hq; cbn [fold_left];
    [exact Hr|].
  apply IH; [|intros q Hin; apply Hq; right; exact Hin].
  pose proof (Hq a (or_introl eq_refl)). coords. lia.
Qed.

Lemma fold_cmax_above (rs : list coord) (r : coord) :
  cle r (fold_left cmax rs r)
  /\ forall q, In q rs -> cle q (fold_left cmax rs r).
Proof.
  revert r. induction rs as [|a rs IH]; intros r; cbn [fold_left].
  - split; [coords; lia|intros q []].
  - destruct (IH (cmax r a)) as [Hr Hq]. split.
    + destruct (fold_left cmax rs (cmax r a)) as [[? ?] ?]. coords. lia.
    + intros q [<-|Hin]; [|auto].
      destruct (fold_left cmax rs (cmax r a)) as [[? ?] ?]. coords. lia.
Qed.

Lemma fold_cmax_below (rs : list coord) (r b : coord) :
  cle r b -> (forall q, In q rs -> cle q b) -> cle (fold_left cmax rs r) b.
Proof.
  revert r. induction rs as [|a rs IH]; intros r Hr Hq; cbn [fold_left];
    [exact Hr|].
  apply IH; [|intros q Hin; apply Hq; right; exact Hin].
  pose proof (Hq a (or_introl eq_refl)). coords. lia.
Qed.

Lemma col_min_spec (rows : list coord) (lo : coord) :
  col_min rows = Returned lo ->
  (forall q, In q rows -> cle lo q)
  /\ forall b, (forall q, In q rows -> cle b q) -> cle b lo.
Proof.
  destruct rows as [|r rs]; [discriminate|]. intros [= <-].
  destruct (fold_cmin_below rs r) as [Hr Hq]. split.
  - intros q [<-|Hin]; auto.
  - intros b Hb. apply fold_cmin_above; [apply Hb; left; reflexivity|].
    intros q Hin. apply Hb. right. exact Hin.
Qed.

Lemma col_max_spec (rows : list coord) (hi : coord) :
  col_max rows = Returned hi ->
  (forall q, In q rows -> cle q hi)
  /\ forall b, (forall q, In q rows -> cle q b) -> cle hi b.
Proof.
  destruct rows as [|r rs]; [discriminate|]. intros [= <-].
  destruct (fold_cmax_above rs r) as [Hr Hq]. split.
  - intros q [<-|Hin]; auto.
  - intros b Hb. apply fold_cmax_below; [apply Hb; left; reflexivity|].
    intros q Hin. apply Hb. right. exact Hin.
Qed.

End CropBounds.

Lemma in_box_iff (X Y Z x y z : Z) :
  Eval.in_box (X, Y, Z) (x, y, z) = true
  <-> 0 <= x < X /\ 0 <= y < Y /\ 0 <= z < Z.
Proof.
  unfold Eval.in_box. rewrite !andb_true_iff, !Z.leb_le, !Z.ltb_lt. lia.
Qed.

(** The crop of [get_instance] lies inside the volume and holds every voxel
    of the volume that is within the buffer of a skeleton point, the
    skeleton points inside the volume among them. *)
Theorem crop_bounds_margin (shp : Eval.coord) (skeleton : list Eval.coord) :
  cle (0, 0, 0) shp -> skeleton <> [] ->
  exists ind_min ind_max,
    Eval.crop_bounds shp skeleton = Returned (ind_min, ind_max)
    /\ cle (0, 0, 0) ind_min
    /\ cle (0, 0, 0) ind_max
    /\ cle ind_max shp
    /\ forall p v,
         In p skeleton -> Eval.in_box shp v = true -> near p v ->
         Eval.in_box (Eval.crop_shape ind_min ind_max) (Eval.csub v ind_min)
         = true.
Proof.
  intros Hshp Hne. destruct shp as [[X Y] Z].
  destruct skeleton as [|p0 ps]; [congruence|]. clear Hne.
  unfold Eval.crop_bounds.
  set (f := fun p : Eval.coord =>
              let '(x, y, z) := Eval.csub p Eval.buffer in
              (Eval.clamp_min 0 x, Eval.clamp_min 0 y, Eval.clamp_min 0 z)).
  set (g := fun p : Eval.coord =>
              let '(x, y, z) := Eval.cadd p Eval.buffer in
              (Eval.clamp 0 X x, Eval.clamp 0 Y y, Eval.clamp 0 Z z)).
  destruct (Eval.col_min (map f (p0 :: ps))) as [lo|] eqn:Hlo;
    [|discriminate].
  destruct (Eval.col_max (map g (p0 :: ps))) as [hi|] eqn:Hhi;
    [|discriminate].
  cbn [bind]. exists lo, hi. split; [reflexivity|].
  destruct (col_min_spec _ _ Hlo) as [Hlo1 Hlo2].
  destruct (col_max_spec _ _ Hhi) as [Hhi1 Hhi2].
  assert (Hf : forall p, cle (0, 0, 0) (f p)
                         /\ cle (Eval.csub p Eval.buffer) (f p)).
  { intros [[px py] pz]. unfold f, Eval.clamp_min, Eval.buffer. cbn.
    lia. }
  assert (Hg : forall p, cle (0, 0, 0) (g p) /\ cle (g p) (X, Y, Z)).
  { intros [[px py] pz]. unfold g, Eval.clamp, Eval.buffer. cbn in *.
    lia. }
  assert (H0lo : cle (0, 0, 0) lo).
  { apply Hlo2. intros q Hq. apply in_map_iff in Hq.
    destruct Hq as (p & <- & _). apply Hf. }
  assert (Hhishp : cle hi (X, Y, Z)).
  { apply Hhi2. intros q Hq. apply in_map_iff in Hq.
    destruct Hq as (p & <- & _). apply Hg. }
  assert (H0hi : cle (0, 0, 0) hi).
  { pose proof (Hhi1 (g p0) (in_map g (p0 :: ps) p0 (in_eq p0 ps))) as Hp0.
    destruct (Hg p0) as [H0 _]. destruct (g p0) as [[? ?] ?].
    destruct hi as [[? ?] ?]. cbn in *. lia. }
  repeat split; try assumption.
  intros p v Hp Hv Hnear.
  pose proof (Hlo1 (f p) (in_map f (p0 :: ps) p Hp)) as Hlp.
  pose proof (Hhi1 (g p) (in_map g (p0 :: ps) p Hp)) as Hhp.
  destruct p as [[px py] pz], v as [[vx vy] vz], lo as [[lx ly] lz],
    hi as [[hx hy] hz].
  apply in_box_iff in Hv.
  unfold f, g, near, Eval.clamp_min, Eval.clamp, Eval.buffer,
    Eval.crop_shape in *.
  cbn in *. apply in_box_iff. lia.
Qed.

(** A skeleton point inside a 100 x 100 x 20 volume lies in its crop. *)
Lemma crop_bounds_margin_witness :
  exists ind_min ind_max,
    Eval.crop_bounds (100, 100, 20) [(60, 3, 5)]
    = Returned (ind_min, ind_max)
    /\ Eval.in_box (Eval.crop_shape ind_min ind_max)
         (Eval.csub (60, 3, 5) ind_min) = true.
Proof.
  destruct (crop_bounds_margin (100, 100, 20) [(60, 3, 5)])
    as (lo & hi & Hb & _ & _ & _ & Hin).
  - cbn. lia.
  - discriminate.
  - exists lo, hi. split; [exact Hb|].
    apply (Hin (60, 3, 5) (60, 3, 5)).
    + left. reflexivity.
    + reflexivity.
    + cbn. lia.
Defined.

Section EvalScale.

Import Eval.

Lemma Qlt_bool_iff (a b : Q) : Qlt_bool a b = true <-> (a < b)%Q.
Proof.
  unfold Qlt_bool. rewrite negb_true_iff, <- not_true_iff_false, Qle_bool_iff.
  split; [apply Qnot_le_lt|apply Qlt_not_le].
Qed.

Lemma Qlt_bool_false (a b : Q) : (b <= a)%Q -> Qlt_bool a b = false.
Proof.
  intros H. apply not_true_is_false. rewrite Qlt_bool_iff.
  apply Qle_not_lt, H.
Qed.

Lemma Qle_bool_false (a b : Q) : (b < a)%Q -> Qle_bool a b = false.
Proof.
  intros H. apply not_true_is_false. rewrite Qle_bool_iff.
  apply Qlt_not_le, H.
Qed.

(** The four outcomes of the chain of tests. *)
Lemma eval_scale_cases (m : Q) :
  ((256 < m)%Q /\ eval_scale m = 2 ^ 16)
  \/ ((1 < m)%Q /\ (m <= 256)%Q /\ eval_scale m = 256)
  \/ ((0 < m)%Q /\ (m < 1)%Q /\ eval_scale m = 1)
  \/ (((m <= 0)%Q \/ (m == 1)%Q) /\ eval_scale m = -99999).
Proof.
  unfold eval_scale.
  destruct (Qlt_le_dec 256 m) as [H256|H256].
  { left. split; [exact H256|].
    rewrite (proj2 (Qlt_bool_iff 256 m) H256). reflexivity. }
  rewrite (Qlt_bool_false 256 m H256), (proj2 (Qle_bool_iff m 256) H256).
  destruct (Qlt_le_dec 1 m) as [H1|H1].
  { right. left. rewrite (proj2 (Qlt_bool_iff 1 m) H1). auto. }
  rewrite (Qlt_bool_false 1 m H1). cbn [andb].
  destruct (Qlt_le_dec m 1) as [Hlt|Hge].
  - rewrite (proj2 (Qlt_bool_iff m 1) Hlt). cbn [andb].
    destruct (Qlt_le_dec 0 m) as [H0|H0].
    + right. right. left. rewrite (proj2 (Qlt_bool_iff 0 m) H0). auto.
    + right. right. right. rewrite (Qlt_bool_false 0 m H0). auto.
  - right. right. right. rewrite (Qlt_bool_false m 1 Hge). cbn [andb].
    split; [right; apply Qle_antisym; assumption|reflexivity].
Qed.

End EvalScale.

(** The scale [eval] divides the image by stays at its initial value
    -99999 exactly when the image maximum is at most 0 or equal to 1: none
    of the three tests covers these maxima.  For every other maximum up to
    65536 the normalised maximum lies in (0, 1]; for a maximum of 1 it is
    negative. *)
Theorem eval_scale_sentinel (image_max : Q) :
  (Eval.eval_scale image_max = -99999
   <-> (image_max <= 0)%Q \/ (image_max == 1)%Q)
  /\ (~ ((image_max <= 0)%Q \/ (image_max == 1)%Q) ->
      (image_max <= 65536)%Q ->
      (0 < image_max / inject_Z (Eval.eval_scale image_max))%Q
      /\ (image_max / inject_Z (Eval.eval_scale image_max) <= 1)%Q)
  /\ ((image_max == 1)%Q ->
      (image_max / inject_Z (Eval.eval_scale image_max) < 0)%Q).
Proof.
  destruct (eval_scale_cases image_max)
    as [[H256 ->]|[(H1 & Hle & ->)|[(H0 & Hlt & ->)|[Hbad ->]]]].
  - assert (H0 : (0 < image_max)%Q) by (eapply Qlt_trans; [|exact H256]; reflexivity).
    split; [|split].
    + split; [discriminate|]. intros [Hn|Hn]; exfalso.
      * apply (Qlt_not_le _ _ H0 Hn).
      * rewrite Hn in H256. discriminate H256.
    + intros _ Hmax. split.
      * apply Qlt_shift_div_l; [reflexivity|]. rewrite Qmult_0_l. exact H0.
      * apply Qle_shift_div_r; [reflexivity|]. rewrite Qmult_1_l. exact Hmax.
    + intros Hn. rewrite Hn in H256. discriminate H256.
  - assert (H0 : (0 < image_max)%Q) by (eapply Qlt_trans; [|exact H1]; reflexivity).
    split; [|split].
    + split; [discriminate|]. intros [Hn|Hn]; exfalso.
      * apply (Qlt_not_le _ _ H0 Hn).
      * rewrite Hn in H1. discriminate H1.
    + intros _ _. split.
      * apply Qlt_shift_div_l; [reflexivity|]. rewrite Qmult_0_l. exact H0.
      * apply Qle_shift_div_r; [reflexivity|]. rewrite Qmult_1_l. exact Hle.
    + intros Hn. rewrite Hn in H1. discriminate H1.
  - split; [|split].
    + split; [discriminate|]. intros [Hn|Hn]; exfalso.
      * apply (Qlt_not_le _ _ H0 Hn).
      * rewrite Hn in Hlt. discriminate Hlt.
    + intros _ _. split.
      * apply Qlt_shift_div_l; [reflexivity|]. rewrite Qmult_0_l. exact H0.
      * apply Qle_shift_div_r; [reflexivity|]. rewrite Qmult_1_l.
        apply Qlt_le_weak, Hlt.
    + intros Hn. rewrite Hn in Hlt. discriminate Hlt.
  - split; [|split].
    + split; [intros _; exact Hbad|reflexivity].
    + intros Hn. contradiction.
    + intros Hn. rewrite Hn. reflexivity.
Qed.

(** An image whose largest value is 200, and one whose largest value is
    1. *)
Lemma eval_scale_sentinel_witness :
  ((0 < 200 / inject_Z (Eval.eval_scale 200))%Q
   /\ (200 / inject_Z (Eval.eval_scale 200) <= 1)%Q)
  /\ (1 / inject_Z (Eval.eval_scale 1) < 0)%Q.
Proof.
  pose proof (eval_scale_sentinel 200) as (_ & Hnorm & _).
  pose proof (eval_scale_sentinel 1) as (_ & _ & Hone).
  split.
  - apply Hnorm; [|discriminate].
    intros [H|H]; [apply (Qlt_not_le 0 200); [reflexivity|exact H]
                  |discriminate H].
  - apply Hone. reflexivity.
Defined.

(** * The model configuration *)

Section Cfg.

Import Utils.

Variable other : Type.
Variable hashable : other -> bool.

Lemma class_of_raised (vd : gmap string component) (v : value other)
  (e : exn) :
  class_of hashable vd v = Raised e ->
  e = TypeError /\ exists o, v = Other o /\ hashable o = false.
Proof.
  destruct v as [s|o]; cbn [class_of]; [discriminate|].
  destruct (hashable o) eqn:Ho; [discriminate|].
  intros [= <-]. eauto.
Qed.

Lemma class_of_single (k : string) (x c : component) (v : value other) :
  class_of hashable {[ k := x ]} v = Returned (Some c) -> v = Str k.
Proof.
  destruct v as [s|o]; cbn [class_of].
  - intros [= H]. apply lookup_singleton_Some in H. destruct H as [-> _].
    reflexivity.
  - destruct (hashable o); discriminate.
Qed.

Lemma class_of_activation (v : value other) (c : component) :
  class_of hashable _valid_activations v = Returned (Some c) ->
  In v [Str "gelu"; Str "relu"; Str "silu"; Str "selu"].
Proof.
  destruct v as [s|o]; cbn [class_of]; [|destruct (hashable o); discriminate].
  unfold _valid_activations. intros [= H].
  repeat (apply lookup_insert_Some in H; destruct H as [[<- _]|[_ H]];
          [cbn; tauto|]).
  apply lookup_singleton_Some in H. destruct H as [<- _]. cbn. tauto.
Qed.

Lemma class_of_constructor (v : value other) (c : component) :
  class_of hashable _valid_model_constructors v = Returned (Some c) ->
  In v [Str "bism_unext"; Str "bism_unet"].
Proof.
  destruct v as [s|o]; cbn [class_of]; [|destruct (hashable o); discriminate].
  unfold _valid_model_constructors. intros [= H].
  apply lookup_insert_Some in H. destruct H as [[<- _]|[_ H]]; [cbn; tauto|].
  apply lookup_singleton_Some in H. destruct H as [<- _]. cbn. tauto.
Qed.

End Cfg.

(** The case of a lookup that raised: the value cannot be hashed. *)
Ltac unhashable H :=
  apply class_of_raised in H; destruct H as (-> & o & -> & Ho);
  right; split; [reflexivity|]; exists o; split; [cbn; tauto|exact Ho].

(** [cfg_to_bism_model] reaches the constructors of line 101 exactly for
    the configurations whose activation, block, concat block, upsample
    block, normalization and architecture are keys of their tables (the
    names are matched as they are written).  Its result is then what the
    constructors give for the class the architecture names, the two channel
    counts as they are, and ten keyword arguments: the five plain options
    as they are and the class each of the five names stands for.  For every
    other configuration the constructors are not called and the function
    raises: a [RuntimeError], or a [TypeError] when one of the six values
    cannot be hashed; when all six can be hashed it is a [RuntimeError]. *)
Theorem cfg_to_bism_model_accepts (other model : Type)
  (hashable : other -> bool)
  (construct :
     Utils.component -> Utils.value other -> Utils.value other ->
     gmap string (Utils.kwvalue other) -> outcome model)
  (cfg : Utils.MODEL other) :
  (accepted cfg ->
   exists backbone activation kwarg,
     Utils.cfg_to_bism_model hashable construct cfg
     = construct backbone (Utils.IN_CHANNELS cfg) (Utils.OUT_CHANNELS cfg)
         kwarg
     /\ Utils.class_of hashable Utils._valid_model_constructors
          (Utils.ARCHITECTURE cfg) = Returned (Some backbone)
     /\ Utils.class_of hashable Utils._valid_activations
          (Utils.ACTIVATION cfg) = Returned (Some activation)
     /\ kwarg !! "dims" = Some (Utils.Config (Utils.DIMS cfg))
     /\ kwarg !! "depths" = Some (Utils.Config (Utils.DEPTHS cfg))
     /\ kwarg !! "kernel_size" = Some (Utils.Config (Utils.KERNEL_SIZE cfg))
     /\ kwarg !! "drop_path_rate"
        = Some (Utils.Config (Utils.DROP_PATH_RATE cfg))
     /\ kwarg !! "layer_scale_init_value"
        = Some (Utils.Config (Utils.LAYER_SCALE_INIT_VALUE cfg))
     /\ kwarg !! "activation" = Some (Utils.Class activation)
     /\ kwarg !! "block" = Some (Utils.Class Utils.Block3D)
     /\ kwarg !! "concat_conv" = Some (Utils.Class Utils.ConcatConv3D)
     /\ kwarg !! "upsample_layer" = Some (Utils.Class Utils.UpSampleLayer3D)
     /\ kwarg !! "normalization"
        = Some (Utils.Class Utils.LayerNorm_channels_first)
     /\ size kwarg = 10%nat)
  /\ (~ accepted cfg ->
      Utils.cfg_to_bism_model hashable construct cfg = Raised RuntimeError
      \/ (Utils.cfg_to_bism_model hashable construct cfg = Raised TypeError
          /\ exists o, In (Utils.Other o) (names cfg)
                       /\ hashable o = false))
  /\ (~ accepted cfg ->
      (forall o, In (Utils.Other o) (names cfg) -> hashable o = true) ->
      Utils.cfg_to_bism_model hashable construct cfg = Raised RuntimeError).
Proof.
  assert (Hrej : ~ accepted cfg ->
      Utils.cfg_to_bism_model hashable construct cfg = Raised RuntimeError
      \/ (Utils.cfg_to_bism_model hashable construct cfg = Raised TypeError
          /\ exists o, In (Utils.Other o) (names cfg)
                       /\ hashable o = false)).
  { destruct cfg as [d1 d2 d3 d4 d5 act blk cc up nrm arch ic oc].
    intros Hno. unfold Utils.cfg_to_bism_model, names.
    cbn [zip zip_with Utils.fill_kwarg Utils.DIMS Utils.DEPTHS
           Utils.KERNEL_SIZE Utils.DROP_PATH_RATE Utils.LAYER_SCALE_INIT_VALUE
           Utils.ACTIVATION Utils.BLOCK Utils.CONCAT_BLOCK
           Utils.UPSAMPLE_BLOCK Utils.NORMALIZATION Utils.ARCHITECTURE].
    destruct (Utils.class_of hashable Utils._valid_activations act)
      as [[a|]|e] eqn:Ha; [|left; reflexivity|unhashable Ha].
    destruct (Utils.class_of hashable Utils._valid_model_blocks blk)
      as [[b|]|e] eqn:Hb; [|left; reflexivity|unhashable Hb].
    destruct (Utils.class_of hashable Utils._valid_concat_blocks cc)
      as [[c|]|e] eqn:Hc; [|left; reflexivity|unhashable Hc].
    destruct (Utils.class_of hashable Utils._valid_upsample_layers up)
      as [[u|]|e] eqn:Hu; [|left; reflexivity|unhashable Hu].
    destruct (Utils.class_of hashable Utils._valid_normalization nrm)
      as [[n|]|e] eqn:Hn; [|left; reflexivity|unhashable Hn].
    cbn [bind].
    destruct (Utils.class_of hashable Utils._valid_model_constructors arch)
      as [[m|]|e] eqn:Hm; [|left; reflexivity|unhashable Hm].
    exfalso. apply Hno. unfold accepted.
    cbn [Utils.ACTIVATION Utils.BLOCK Utils.CONCAT_BLOCK
           Utils.UPSAMPLE_BLOCK Utils.NORMALIZATION Utils.ARCHITECTURE].
    apply class_of_activation in Ha. apply class_of_single in Hb.
    apply class_of_single in Hc. apply class_of_single in Hu.
    apply class_of_single in Hn. apply class_of_constructor in Hm.
    repeat split; assumption. }
  split; [|split].
  - destruct cfg as [d1 d2 d3 d4 d5 act blk cc up nrm arch ic oc].
    unfold accepted.
    cbn [Utils.ACTIVATION Utils.BLOCK Utils.CONCAT_BLOCK
           Utils.UPSAMPLE_BLOCK Utils.NORMALIZATION Utils.ARCHITECTURE
           Utils.IN_CHANNELS Utils.OUT_CHANNELS Utils.DIMS Utils.DEPTHS
           Utils.KERNEL_SIZE Utils.DROP_PATH_RATE
           Utils.LAYER_SCALE_INIT_VALUE].
    intros (Ha & -> & -> & -> & -> & Har). cbn [In] in Ha, Har.
    destruct Ha as [<-|[<-|[<-|[<-|[]]]]]; destruct Har as [<-|[<-|[]]];
      do 3 eexists;
      (split; [unfold Utils.cfg_to_bism_model; cbn; reflexivity|]);
      repeat split; vm_compute; reflexivity.
  - exact Hrej.
  - intros Hno Hall. destruct (Hrej Hno) as [H|(_ & o & Hin & Ho)];
      [exact H|].
    rewrite (Hall o Hin) in Ho. discriminate.
Qed.

(** A UNeXT with GELU activations, with a constructor that returns the
    class it is asked to build. *)
Lemma cfg_to_bism_model_accepts_witness :
  Utils.cfg_to_bism_model (fun _ : Z => true)
    (fun backbone _ _ _ => Returned backbone)
    (Utils.mkMODEL Z (Utils.Other 3) (Utils.Other 4) (Utils.Other 7)
       (Utils.Other 0) (Utils.Other 1) (Utils.Str "gelu")
       (Utils.Str "block3d") (Utils.Str "concatconv3d")
       (Utils.Str "upsamplelayer3d") (Utils.Str "layernorm")
       (Utils.Str "bism_unext") (Utils.Other 1) (Utils.Other 5))
  = Returned Utils.UNeXT_3D.
Proof.
  destruct (proj1 (cfg_to_bism_model_accepts Z Utils.component
                     (fun _ : Z => true)
                     (fun backbone _ _ _ => Returned backbone)
                     (Utils.mkMODEL Z (Utils.Other 3) (Utils.Other 4)
                        (Utils.Other 7) (Utils.Other 0) (Utils.Other 1)
                        (Utils.Str "gelu") (Utils.Str "block3d")
                        (Utils.Str "concatconv3d")
                        (Utils.Str "upsamplelayer3d") (Utils.Str "layernorm")
                        (Utils.Str "bism_unext") (Utils.Other 1)
                        (Utils.Other 5))))
    as (backbone & activation & kwarg & Hrun & Hb & _).
  - unfold accepted. cbn. tauto.
  - rewrite Hrun. cbn in Hb. injection Hb as <-. reflexivity.
Defined.

(** * Boxes with arbitrary corners and sizes *)

(** A slice never leaves the axis, whatever its bounds are. *)
Lemma slice_within (n : nat) (start stop : Z) :
  (fst (Utils.slice n start stop) + snd (Utils.slice n start stop) <= n)%nat.
Proof.
  unfold Utils.slice, Utils.slice_bound. cbn [fst snd].
  destruct (Z.ltb_spec start 0), (Z.ltb_spec stop 0); lia.
Qed.

(** [_crop3d] returns for every box, also one with negative corners or
    sizes, on a tensor with at least three dimensions.  The crop keeps the
    leading dimensions, none of its last three dimensions is longer than
    that of the source, and every element of the crop is the element of the
    source at a fixed offset that stays inside the source. *)
Theorem _crop3d_within (img : Utils.Tensor) (x y z w h d : Z)
  (lead : list nat) (n1 n2 n3 : nat) :
  Utils.shape img = lead ++ [n1; n2; n3] ->
  exists out l1 l2 l3 o1 o2 o3,
    Utils._crop3d img x y z w h d = Returned out
    /\ Utils.shape out = lead ++ [l1; l2; l3]
    /\ (o1 + l1 <= n1)%nat /\ (o2 + l2 <= n2)%nat /\ (o3 + l3 <= n3)%nat
    /\ forall l i j k,
         Utils.item out (l ++ [i; j; k])
         = Utils.item img (l ++ [(i + o1)%nat; (j + o2)%nat; (k + o3)%nat]).
Proof.
  intros Hs. unfold Utils._crop3d. rewrite Hs, rev_app_distr. cbn [rev app].
  pose proof (slice_within n1 x (x + w)) as H1.
  pose proof (slice_within n2 y (y + h)) as H2.
  pose proof (slice_within n3 z (z + d)) as H3.
  destruct (Utils.slice n1 x (x + w)) as [o1 l1].
  destruct (Utils.slice n2 y (y + h)) as [o2 l2].
  destruct (Utils.slice n3 z (z + d)) as [o3 l3].
  cbn [fst snd] in *.
  eexists. exists l1, l2, l3, o1, o2, o3. split; [reflexivity|].
  cbn [Utils.shape Utils.item]. rewrite rev_involutive.
  repeat split; try assumption.
  intros l i j k. rewrite shift_last3_app. reflexivity.
Qed.

(** A box with a negative corner and a negative size on a 2 x 5 x 3 x 7
    tensor. *)
Lemma _crop3d_within_witness :
  exists out l1 l2 l3 o1 o2 o3,
    Utils._crop3d (Utils.mkTensor [2; 5; 3; 7]%nat (fun _ => 0%Q))
      (-2) 1 4 9 (-1) 20 = Returned out
    /\ Utils.shape out = [2%nat] ++ [l1; l2; l3]
    /\ (o1 + l1 <= 5)%nat /\ (o2 + l2 <= 3)%nat /\ (o3 + l3 <= 7)%nat
    /\ forall l i j k,
         Utils.item out (l ++ [i; j; k])
         = Utils.item (Utils.mkTensor [2; 5; 3; 7]%nat (fun _ => 0%Q))
             (l ++ [(i + o1)%nat; (j + o2)%nat; (k + o3)%nat]).
Proof.
  apply (_crop3d_within (Utils.mkTensor [2; 5; 3; 7]%nat (fun _ => 0%Q))
           (-2) 1 4 9 (-1) 20 [2%nat] 5%nat 3%nat 7%nat).
  reflexivity.
Defined.

